(** * poeditor-mcp: the remote call adapter and the tool contracts of
    [src/server.ts], embedded as Rocq functions.

    The embedding follows the TypeScript source function by function:
    - JavaScript values that cross the JSON boundary are the inductive
      [JSValue]; property access, truthiness, [??], [||], template-literal
      conversion and [JSON.stringify] are written out on it;
    - the builtins whose behaviour the program takes from the language,
      [JSON.parse], [Number] and [String.prototype.toLowerCase], are fields
      of the class [JSRuntime]; every general theorem holds for any
      instance, and a concrete instance ([ModelRuntime]) is used to run the
      handlers on concrete inputs;
    - the network is an oracle [Remote]; the handlers run in a small
      state-and-exception monad [M] whose state is the list of requests sent,
      so that what was transmitted, and in which order, can be stated. *)

From Stdlib Require Import String Ascii List Bool ZArith NArith Lia Arith.
From Stdlib Require Import DecimalString Permutation Sorted.
Import ListNotations.

Local Open Scope list_scope.
Local Open Scope string_scope.

(** ** Strings

    A string is a sequence of 8-bit units (the bytes of its text).
    [foldASCII] lowers the letters A to Z and leaves every other unit
    alone; the [toLowerCase] of the language, which knows the letters of
    every script, is a field of the runtime below and agrees with
    [foldASCII] on ASCII text. *)

Definition dquote : string := String (ascii_of_nat 34) EmptyString.

Definition lowerChar (c : ascii) : ascii :=
  let n := nat_of_ascii c in
  if (65 <=? n)%nat && (n <=? 90)%nat then ascii_of_nat (n + 32) else c.

Fixpoint foldASCII (s : string) : string :=
  match s with
  | EmptyString => EmptyString
  | String c r => String (lowerChar c) (foldASCII r)
  end.

Fixpoint isASCII (s : string) : bool :=
  match s with
  | EmptyString => true
  | String c r => (nat_of_ascii c <? 128)%nat && isASCII r
  end.

(** The property names an object lists first, in ascending order: the
    canonical decimal writings of the integers from 0 to 2^32 - 2. *)
Fixpoint decimalValue (acc : N) (s : string) : option N :=
  match s with
  | EmptyString => Some acc
  | String c r =>
      let n := nat_of_ascii c in
      if (48 <=? n)%nat && (n <=? 57)%nat
      then decimalValue (acc * 10 + N.of_nat (n - 48))%N r
      else None
  end.

Definition arrayIndex (k : string) : option N :=
  match k with
  | EmptyString => None
  | String c r =>
      if (nat_of_ascii c =? 48)%nat && negb (String.eqb r "") then None
      else
        match decimalValue 0 k with
        | Some v => if (v <=? 4294967294)%N then Some v else None
        | None => None
        end
  end.

(** [includes s pat] is [s.includes(pat)]. *)
Fixpoint includes (s pat : string) : bool :=
  match s with
  | EmptyString => prefix pat EmptyString
  | String _ r => prefix pat s || includes r pat
  end.

Fixpoint repeatString (s : string) (n : nat) : string :=
  match n with
  | O => EmptyString
  | S k => s ++ repeatString s k
  end.

Fixpoint takeString (n : nat) (s : string) : string :=
  match n, s with
  | S k, String c r => String c (takeString k r)
  | _, _ => EmptyString
  end.

Fixpoint dropString (n : nat) (s : string) : string :=
  match n, s with
  | S k, String _ r => dropString k r
  | _, _ => s
  end.

(** ** Numbers

    A JavaScript number is NaN, an infinity, or a finite value written
    exactly as [m * 10^e] (every finite double has such a writing). *)

Inductive number : Type :=
| NaN
| Infinity (negative : bool)
| Finite (m e : Z).

Definition number_of_Z (z : Z) : number := Finite z 0.
Definition number_of_nat (n : nat) : number := Finite (Z.of_nat n) 0.
Definition number_of_positive (p : positive) : number := Finite (Zpos p) 0.

(** [!!n]: every number but NaN and zero is truthy. *)
Definition truthyNumber (n : number) : bool :=
  match n with
  | NaN => false
  | Infinity _ => true
  | Finite m _ => negb (m =? 0)%Z
  end.

Definition decimalN (n : N) : string := NilZero.string_of_uint (N.to_uint n).

Fixpoint stripZeros (fuel : nat) (m : N) (e : Z) : N * Z :=
  match fuel with
  | O => (m, e)
  | S f =>
      if ((m mod 10 =? 0) && (0 <? m))%N
      then stripZeros f (m / 10)%N (e + 1)%Z
      else (m, e)
  end.

(** [Number::toString] in radix 10, on the digits [s] of the value
    ([k] of them, no trailing zero) and the position [n] of the decimal
    point after the first [n] digits. *)
Definition numberToString (x : number) : string :=
  match x with
  | NaN => "NaN"
  | Infinity false => "Infinity"
  | Infinity true => "-Infinity"
  | Finite m e =>
      if (m =? 0)%Z then "0" else
      let sign := if (m <? 0)%Z then "-" else "" in
      let '(s, e') := stripZeros (S (N.to_nat (N.log2 (Z.abs_N m)))) (Z.abs_N m) e in
      let digits := decimalN s in
      let k := Z.of_nat (String.length digits) in
      let n := (k + e')%Z in
      sign ++
      (if ((k <=? n) && (n <=? 21))%Z then
         digits ++ repeatString "0" (Z.to_nat (n - k))
       else if ((0 <? n) && (n <=? 21))%Z then
         takeString (Z.to_nat n) digits ++ "." ++ dropString (Z.to_nat n) digits
       else if ((-6 <? n) && (n <=? 0))%Z then
         "0." ++ repeatString "0" (Z.to_nat (- n)) ++ digits
       else
         let e1 := (n - 1)%Z in
         let exponent := (if (e1 <? 0)%Z then "-" else "+") ++ decimalN (Z.abs_N e1) in
         if (k =? 1)%Z then digits ++ "e" ++ exponent
         else takeString 1 digits ++ "." ++ dropString 1 digits ++ "e" ++ exponent)
  end.

(** ** Values *)

#[local] Set Warnings "-register-all".

Inductive JSValue : Type :=
| JUndefined
| JNull
| JBool (b : bool)
| JNum (n : number)
| JStr (s : string)
| JArr (elements : list JSValue)
| JObj (members : list (string * JSValue)).

(** Own properties of an object, in insertion order; a key occurs once. *)
Fixpoint lookupKey {A : Type} (k : string) (l : list (string * A)) : option A :=
  match l with
  | [] => None
  | (k', v) :: r => if String.eqb k k' then Some v else lookupKey k r
  end.

(** [o[k] = v]: overwrite in place, or append a new key. *)
Fixpoint setKey {A : Type} (k : string) (v : A) (l : list (string * A)) : list (string * A) :=
  match l with
  | [] => [(k, v)]
  | (k', v') :: r => if String.eqb k k' then (k, v) :: r else (k', v') :: setKey k v r
  end.

Fixpoint removeKey {A : Type} (k : string) (l : list (string * A)) : list (string * A) :=
  match l with
  | [] => []
  | (k', v') :: r => if String.eqb k k' then removeKey k r else (k', v') :: removeKey k r
  end.

(** The order in which an object lists its own properties: those named by
    an array index first, by ascending index, then the others in the order
    they were added. *)
Fixpoint insertIndexed {A : Type} (n : N) (kv : string * A)
  (l : list (N * (string * A))) : list (N * (string * A)) :=
  match l with
  | [] => [(n, kv)]
  | (m, x) :: r =>
      if (n <? m)%N then (n, kv) :: (m, x) :: r else (m, x) :: insertIndexed n kv r
  end.

Definition indexedProperties {A : Type} (l : list (string * A))
  : list (N * (string * A)) :=
  fold_right (fun kv acc =>
                match arrayIndex (fst kv) with
                | Some n => insertIndexed n kv acc
                | None => acc
                end) [] l.

Definition isNamed {A : Type} (kv : string * A) : bool :=
  match arrayIndex (fst kv) with
  | Some _ => false
  | None => true
  end.

Definition propertyOrder {A : Type} (l : list (string * A)) : list (string * A) :=
  (map snd (indexedProperties l) ++ filter isNamed l)%list.

(** [v.k] on a value that is neither null nor undefined.  The names the
    program reads (response, status, code, message, result, terms, term,
    context, translation, content) are no properties of strings, numbers,
    booleans or arrays, so there the result is undefined. *)
Definition getProp (v : JSValue) (k : string) : JSValue :=
  match v with
  | JObj ms => match lookupKey k ms with Some x => x | None => JUndefined end
  | _ => JUndefined
  end.

Definition isNullish (v : JSValue) : bool :=
  match v with
  | JUndefined | JNull => true
  | _ => false
  end.

(** [v?.k] *)
Definition optChain (v : JSValue) (k : string) : JSValue :=
  if isNullish v then JUndefined else getProp v k.

(** [!!v] *)
Definition truthy (v : JSValue) : bool :=
  match v with
  | JUndefined | JNull => false
  | JBool b => b
  | JNum n => truthyNumber n
  | JStr s => negb (String.eqb s "")
  | JArr _ | JObj _ => true
  end.

(** [a || b] and [a ?? b] on values. *)
Definition orElse (a b : JSValue) : JSValue := if truthy a then a else b.
Definition nullish (a b : JSValue) : JSValue := if isNullish a then b else a.

(** [status !== "success"] negated: strict equality with a string literal. *)
Definition strictEqString (v : JSValue) (s : string) : bool :=
  match v with
  | JStr x => String.eqb x s
  | _ => false
  end.

(** ** JSON.stringify

    [toJSON] is the value that gets serialised: a property whose value is
    undefined is left out of its object, an undefined array element and a
    number that is not finite become null, and undefined itself has no
    serialisation. [render] writes such a value with the indentation unit
    [gap] ([JSON.stringify(v)] has none, [JSON.stringify(v, null, 2)] two
    spaces). *)

Fixpoint toJSON (v : JSValue) : option JSValue :=
  match v with
  | JUndefined => None
  | JNum (Finite m e) => Some (JNum (Finite m e))
  | JNum _ => Some JNull
  | JArr l =>
      Some (JArr (map (fun x => match toJSON x with Some y => y | None => JNull end) l))
  | JObj ms =>
      Some (JObj ((fix members (ms : list (string * JSValue)) : list (string * JSValue) :=
                     match ms with
                     | [] => []
                     | (k, x) :: r =>
                         match toJSON x with
                         | Some y => (k, y) :: members r
                         | None => members r
                         end
                     end) ms))
  | _ => Some v
  end.

Definition newline : string := String (ascii_of_nat 10) EmptyString.
Definition backslash : string := String (ascii_of_nat 92) EmptyString.

Definition hexDigit (n : nat) : string :=
  takeString 1 (dropString n "0123456789abcdef").

Definition quoteChar (c : ascii) : string :=
  let n := nat_of_ascii c in
  if (n =? 34)%nat then backslash ++ dquote
  else if (n =? 92)%nat then backslash ++ backslash
  else if (n =? 8)%nat then backslash ++ "b"
  else if (n =? 12)%nat then backslash ++ "f"
  else if (n =? 10)%nat then backslash ++ "n"
  else if (n =? 13)%nat then backslash ++ "r"
  else if (n =? 9)%nat then backslash ++ "t"
  else if (n <? 32)%nat then backslash ++ "u00" ++ hexDigit (n / 16) ++ hexDigit (n mod 16)
  else String c EmptyString.

Fixpoint quoteBody (s : string) : string :=
  match s with
  | EmptyString => EmptyString
  | String c r => quoteChar c ++ quoteBody r
  end.

Definition quoteJSON (s : string) : string := dquote ++ quoteBody s ++ dquote.

Definition bracket (gap indent opening closing : string) (items : list string) : string :=
  match items with
  | [] => opening ++ closing
  | _ =>
      if String.eqb gap "" then opening ++ String.concat "," items ++ closing
      else
        let inner := indent ++ gap in
        opening ++ newline ++ inner
          ++ String.concat ("," ++ newline ++ inner) items
          ++ newline ++ indent ++ closing
  end.

Fixpoint render (gap indent : string) (v : JSValue) : string :=
  match v with
  | JUndefined | JNull => "null"
  | JBool true => "true"
  | JBool false => "false"
  | JNum (Finite m e) => numberToString (Finite m e)
  | JNum _ => "null"
  | JStr s => quoteJSON s
  | JArr l => bracket gap indent "[" "]" (map (render gap (indent ++ gap)) l)
  | JObj ms =>
      bracket gap indent "{" "}"
        (map (fun kv : string * JSValue =>
                quoteJSON (fst kv) ++ ":" ++ (if String.eqb gap "" then "" else " ")
                  ++ render gap (indent ++ gap) (snd kv)) ms)
  end.

(** [JSON.stringify(v, null, space)]; [None] is the result undefined. *)
Definition JSON_stringify (space : nat) (v : JSValue) : option string :=
  option_map (render (repeatString " " (Nat.min space 10)) "") (toJSON v).

(** ** Errors, effects and the network *)

Inductive Exn : Type :=
| Error (message : string)
| TypeError (message : string)
| TransportError (message : string).

Inductive Outcome (A : Type) : Type :=
| Ok (a : A)
| Throw (e : Exn).
Arguments Ok {A} a.
Arguments Throw {A} e.

Definition bindO {A B : Type} (o : Outcome A) (f : A -> Outcome B) : Outcome B :=
  match o with
  | Ok a => f a
  | Throw e => Throw e
  end.

Fixpoint mapO {A B : Type} (f : A -> Outcome B) (l : list A) : Outcome (list B) :=
  match l with
  | [] => Ok []
  | x :: r => bindO (f x) (fun y => bindO (mapO f r) (fun ys => Ok (y :: ys)))
  end.

Fixpoint filterO {A : Type} (p : A -> Outcome bool) (l : list A) : Outcome (list A) :=
  match l with
  | [] => Ok []
  | x :: r =>
      bindO (p x) (fun keep =>
      bindO (filterO p r) (fun ys => Ok (if keep then x :: ys else ys)))
  end.

(** [`${v}`]: the string conversion of a value read from JSON.  An array
    joins the conversions of its elements.  An object is converted by its
    toString method: an object that has a member of that name of its own has
    no method there (a value read from JSON is not callable) and its valueOf
    returns the object, so the conversion throws; any other object uses the
    inherited method. *)
Fixpoint ToString (v : JSValue) : Outcome string :=
  match v with
  | JUndefined => Ok "undefined"
  | JNull => Ok "null"
  | JBool true => Ok "true"
  | JBool false => Ok "false"
  | JNum n => Ok (numberToString n)
  | JStr s => Ok s
  | JArr l =>
      (fix join (first : bool) (l : list JSValue) : Outcome string :=
         match l with
         | [] => Ok ""
         | x :: r =>
             bindO (if isNullish x then Ok "" else ToString x) (fun here =>
             bindO (join false r) (fun rest =>
             Ok ((if first then "" else ",") ++ here ++ rest)))
         end) true l
  | JObj ms =>
      match lookupKey "toString" ms with
      | Some _ => Throw (TypeError "Cannot convert object to primitive value")
      | None => Ok "[object Object]"
      end
  end.

(** One POST of the adapter: the address and the fields of the
    form-encoded body, in the order [URLSearchParams] writes them. *)
Record Request : Type := mkRequest {
  url : string;
  method : string;
  content_type : string;
  body : list (string * string)
}.

Inductive NetReply : Type :=
| ReplyBody (text : string)
| ReplyFailed (e : Exn).

(** The requests sent so far, oldest first. *)
Definition World : Type := list Request.

(** The remote service: its reply to a request, given the requests that
    came before. *)
Definition Remote : Type := World -> Request -> NetReply.

Definition M (A : Type) : Type := World -> Outcome A * World.

Definition ret {A : Type} (a : A) : M A := fun w => (Ok a, w).
Definition throw {A : Type} (e : Exn) : M A := fun w => (Throw e, w).
Definition bind {A B : Type} (m : M A) (f : A -> M B) : M B :=
  fun w =>
    match m w with
    | (Ok a, w') => f a w'
    | (Throw e, w') => (Throw e, w')
    end.
Definition lift {A : Type} (o : Outcome A) : M A := fun w => (o, w).

Declare Scope js_scope.
Delimit Scope js_scope with js.
Notation "x <- m ;; k" := (bind m (fun x => k))
  (at level 61, m at next level, right associativity) : js_scope.

(** [await request(url, ...)] followed by [await resBody.text()]. *)
Definition request (remote : Remote) (rq : Request) : M string :=
  fun w =>
    match remote w rq with
    | ReplyBody text => (Ok text, w ++ [rq])%list
    | ReplyFailed e => (Throw e, w ++ [rq])%list
    end.

(** ** Configuration and the language runtime *)

Record Config : Type := mkConfig {
  API_BASE : string;
  API_TOKEN : string;
  PROJECT_ID : option string
}.

Definition loadConfig (env : string -> option string) : option Config :=
  match env "POEDITOR_API_TOKEN" with
  | None => None
  | Some token =>
      if String.eqb token "" then None
      else Some {|
        API_BASE :=
          match env "POEDITOR_API_BASE" with
          | Some b => if String.eqb b "" then "https://api.poeditor.com/v2" else b
          | None => "https://api.poeditor.com/v2"
          end;
        API_TOKEN := token;
        PROJECT_ID := env "POEDITOR_PROJECT_ID" |}
  end.

(** [JSON.parse] ([None]: it throws a SyntaxError), [Number] applied to a
    string, and [String.prototype.toLowerCase].  The empty string converts to
    zero; lowering ASCII text lowers the letters A to Z, and lowering a string
    that is not empty gives one that is not empty. *)
Class JSRuntime : Type := {
  JSON_parse : string -> option JSValue;
  Number : string -> number;
  toLowerCase : string -> string;
  Number_empty : truthyNumber (Number "") = false;
  toLowerCase_ascii : forall s, isASCII s = true -> toLowerCase s = foldASCII s;
  toLowerCase_nonempty : forall s, toLowerCase s = "" -> s = ""
}.

(** ** Tool schemas

    The records are the values the handlers receive, after the schema has
    accepted the caller's arguments: an optional field is an [option], a
    positive integer a [positive], a field with a default is always there. *)

Record PluralForms : Type := mkPlural {
  one : option string;
  few : option string;
  many : option string;
  other : option string
}.

Module TranslationsInput.
Record item : Type := mkItem {
  term : string;
  context : option string;
  content : string;
  fuzzy : option bool;
  plural : option PluralForms
}.
Record t : Type := mk {
  project_id : option positive;
  language : string;
  items : list item
}.
End TranslationsInput.

Inductive Field : Type := FTerm | FContext | FTranslation.

Module ListTermsInput.
Record t : Type := mk {
  project_id : option positive;
  language : option string;
  limit : option positive;
  search : option string;
  count_only : option bool;
  fields : option (list Field)
}.
End ListTermsInput.

Module ListLanguagesInput.
Record t : Type := mk { project_id : option positive }.
End ListLanguagesInput.

Module AddLanguageInput.
Record t : Type := mk {
  project_id : option positive;
  language : string
}.
End AddLanguageInput.

Module AddTermsWithTranslationsInput.
Record translation_t : Type := mkTranslation {
  content : string;
  fuzzy : option bool;
  plural : option PluralForms
}.
Record item : Type := mkItem {
  term : string;
  context : option string;
  reference : option string;
  tags : option (list string);
  translation : translation_t
}.
Record t : Type := mk {
  project_id : option positive;
  language : string;
  items : list item
}.
End AddTermsWithTranslationsInput.

(** Optional fields as values: an absent one is undefined. *)
Definition optString (o : option string) : JSValue :=
  match o with
  | Some s => JStr s
  | None => JUndefined
  end.

Definition optStrings (o : option (list string)) : JSValue :=
  match o with
  | Some l => JArr (map JStr l)
  | None => JUndefined
  end.

Definition pluralValue (p : PluralForms) : JSValue :=
  JObj [("one", optString (one p)); ("few", optString (few p));
        ("many", optString (many p)); ("other", optString (other p))].

(** What a handler returns: [{ content: [{ type: "text", text }] }]. *)
Record ContentItem : Type := mkContent {
  type : string;
  text : option string
}.

Record ToolResult : Type := mkResult { content : list ContentItem }.

Definition textResult (s : option string) : ToolResult :=
  {| content := [ {| type := "text"; text := s |} ] |}.

(** A form field holds a string: [URLSearchParams] converts what it is
    given, so an undefined value would be sent as the word undefined. *)
Definition formValue (o : option string) : string :=
  match o with
  | Some s => s
  | None => "undefined"
  end.

(** [v.k]: reading a property of null or undefined throws. *)
Definition member (v : JSValue) (k : string) : Outcome JSValue :=
  if isNullish v
  then Throw (TypeError ("Cannot read properties of "
                           ++ match v with JNull => "null" | _ => "undefined" end))
  else Ok (getProp v k).

(** [v?.toLowerCase().includes(needle)]: undefined on null and undefined,
    a boolean on a string; any other value has no such method. *)
Definition lowerIncludes {rt : JSRuntime} (v : JSValue) (needle : string)
  : Outcome JSValue :=
  match v with
  | JUndefined | JNull => Ok JUndefined
  | JStr s => Ok (JBool (includes (toLowerCase s) needle))
  | _ => Throw (TypeError "toLowerCase is not a function")
  end.

Definition hasField (f : Field) (l : list Field) : bool :=
  existsb (fun g =>
             match f, g with
             | FTerm, FTerm | FContext, FContext | FTranslation, FTranslation => true
             | _, _ => false
             end) l.

(** ** The server *)

Section Server.
Context {rt : JSRuntime}.
Variable cfg : Config.
Variable remote : Remote.

Local Open Scope js_scope.

(** [new URLSearchParams({ api_token: API_TOKEN, ...form })]: the spread
    writes the fields of the form into the object after the token, and the
    parameters are the properties of the object in their own order. *)
Definition formBody (form : list (string * string)) : list (string * string) :=
  propertyOrder
    (fold_left (fun acc kv => setKey (fst kv) (snd kv) acc) form
       [("api_token", API_TOKEN cfg)]).

Definition unknownError : string := "Unknown POEditor error".

(** What [poeditor] does with the text of a reply. *)
Definition readReply (text : string) : Outcome JSValue :=
  match JSON_parse text with
  | None => Throw (Error ("POEditor: invalid JSON response: " ++ text))
  | Some json =>
      let status := optChain (optChain json "response") "status" in
      if negb (strictEqString status "success") then
        let code := optChain (optChain json "response") "code" in
        let message :=
          orElse (optChain (optChain json "response") "message") (JStr unknownError) in
        bindO (ToString (nullish code (JStr ""))) (fun codeText =>
        bindO (ToString message) (fun messageText =>
        Throw (Error ("POEditor API error " ++ codeText ++ ": " ++ messageText))))
      else Ok json
  end.

(** The request [poeditor] sends for an endpoint and a form. *)
Definition adapterRequest (endpoint : string) (form : list (string * string)) : Request :=
  {| url := API_BASE cfg ++ "/" ++ endpoint;
     method := "POST";
     content_type := "application/x-www-form-urlencoded";
     body := formBody form |}.

Definition poeditor (endpoint : string) (form : list (string * string)) : M JSValue :=
  text <- request remote (adapterRequest endpoint form) ;;
  lift (readReply text).

(** What [poeditor] makes of the reply of the network. *)
Definition adapterOutcome (reply : NetReply) : Outcome JSValue :=
  match reply with
  | ReplyBody text => readReply text
  | ReplyFailed e => Throw e
  end.

Definition missingProjectId : Exn :=
  Error "project_id is required (either pass it to the tool or set POEDITOR_PROJECT_ID)".

Definition requireProjectId (argProjectId : option number) : Outcome number :=
  let id :=
    match argProjectId with
    | Some n => Some n
    | None =>
        match PROJECT_ID cfg with
        | Some s => if negb (String.eqb s "") then Some (Number s) else None
        | None => None
        end
    end in
  match id with
  | Some n => if truthyNumber n then Ok n else Throw missingProjectId
  | None => Throw missingProjectId
  end.

(** [String(id)] *)
Definition idField (id : number) : string * string := ("id", numberToString id).

(** *** add_translations and update_translations *)

Definition add_translations_payload (i : TranslationsInput.item) : JSValue :=
  JObj [("term", JStr (TranslationsInput.term i));
        ("context", JStr match TranslationsInput.context i with Some c => c | None => "" end);
        ("translation",
          match TranslationsInput.plural i with
          | Some p => JObj [("plural", pluralValue p)]
          | None =>
              JObj [("content", JStr (TranslationsInput.content i));
                    ("fuzzy", JNum (number_of_Z
                       match TranslationsInput.fuzzy i with Some true => 1 | _ => 0 end))]
          end)].

Definition add_translations (args : TranslationsInput.t) : M ToolResult :=
  id <- lift (requireProjectId (option_map number_of_positive (TranslationsInput.project_id args))) ;;
  let payload := map add_translations_payload (TranslationsInput.items args) in
  let data := JSON_stringify 0 (JArr payload) in
  res <- poeditor "translations/add"
           [idField id; ("language", TranslationsInput.language args);
            ("data", formValue data)] ;;
  result <- lift (member res "result") ;;
  ret (textResult (JSON_stringify 2 (nullish result (JObj [])))).

Definition update_translations_payload (i : TranslationsInput.item) : JSValue :=
  JObj [("term", JStr (TranslationsInput.term i));
        ("context", JStr match TranslationsInput.context i with Some c => c | None => "" end);
        ("translation",
          match TranslationsInput.plural i with
          | Some p => JObj [("plural", pluralValue p)]
          | None =>
              JObj [("content", JStr (TranslationsInput.content i));
                    ("fuzzy", JNum (number_of_Z
                       match TranslationsInput.fuzzy i with Some true => 1 | _ => 0 end))]
          end)].

Definition update_translations (args : TranslationsInput.t) : M ToolResult :=
  id <- lift (requireProjectId (option_map number_of_positive (TranslationsInput.project_id args))) ;;
  let payload := map update_translations_payload (TranslationsInput.items args) in
  let data := JSON_stringify 0 (JArr payload) in
  res <- poeditor "translations/update"
           [idField id; ("language", TranslationsInput.language args);
            ("data", formValue data)] ;;
  result <- lift (member res "result") ;;
  ret (textResult (JSON_stringify 2 (nullish result (JObj [])))).

(** *** list_terms *)

(** The callback of [res.result?.terms?.map(...)]. *)
Definition reduceTerm (t : JSValue) : Outcome JSValue :=
  bindO (member t "term") (fun term =>
  Ok (JObj [("term", term);
            ("context", orElse (getProp t "context") JUndefined);
            ("translation",
              orElse (optChain (getProp t "translation") "content") JUndefined)])).

(** [res.result?.terms?.map(...) ?? []] *)
Definition reduceTerms (res : JSValue) : Outcome (list JSValue) :=
  bindO (member res "result") (fun result =>
  match optChain result "terms" with
  | JUndefined | JNull => Ok []
  | JArr l => mapO reduceTerm l
  | _ => Throw (TypeError "res.result?.terms?.map is not a function")
  end).

(** The callback of [terms.filter(...)]: the three tests are joined by
    [||], which stops at the first truthy one. *)
Definition matchesSearch (searchLower : string) (t : JSValue) : Outcome bool :=
  bindO (lowerIncludes (getProp t "term") searchLower) (fun a =>
  if truthy a then Ok true else
  bindO (lowerIncludes (getProp t "context") searchLower) (fun b =>
  if truthy b then Ok true else
  bindO (lowerIncludes (getProp t "translation") searchLower) (fun c =>
  Ok (truthy c)))).

(** [if (args.search) { ... }] *)
Definition applySearch (search : option string) (terms : list JSValue)
  : Outcome (list JSValue) :=
  match search with
  | Some s =>
      if negb (String.eqb s "")
      then filterO (matchesSearch (toLowerCase s)) terms
      else Ok terms
  | None => Ok terms
  end.

Definition projectFields (fieldSet : list Field) (t : JSValue) : JSValue :=
  let filtered := [] in
  let filtered :=
    if hasField FTerm fieldSet then setKey "term" (getProp t "term") filtered
    else filtered in
  let filtered :=
    if hasField FContext fieldSet then setKey "context" (getProp t "context") filtered
    else filtered in
  let filtered :=
    if hasField FTranslation fieldSet
    then setKey "translation" (getProp t "translation") filtered
    else filtered in
  JObj filtered.

(** [if (args.fields && args.fields.length > 0) { ... }] *)
Definition applyFields (fields : option (list Field)) (terms : list JSValue)
  : list JSValue :=
  match fields with
  | Some (f :: fs) => map (projectFields (f :: fs)) terms
  | _ => terms
  end.

(** [if (args.limit && args.limit < terms.length) terms = terms.slice(0, args.limit)] *)
Definition applyLimit (limit : option positive) (terms : list JSValue) : list JSValue :=
  match limit with
  | Some n =>
      if (Pos.to_nat n <? List.length terms)%nat then firstn (Pos.to_nat n) terms
      else terms
  | None => terms
  end.

(** The terms that are counted: reduced, searched, projected. *)
Definition selectTerms (args : ListTermsInput.t) (res : JSValue)
  : Outcome (list JSValue) :=
  bindO (reduceTerms res) (fun terms =>
  bindO (applySearch (ListTermsInput.search args) terms) (fun terms =>
  Ok (applyFields (ListTermsInput.fields args) terms))).

(** From [const total = terms.length] to the end of the handler. *)
Definition listTermsOutput (args : ListTermsInput.t) (terms : list JSValue)
  : ToolResult :=
  let total := JNum (number_of_nat (List.length terms)) in
  match ListTermsInput.count_only args with
  | Some true => textResult (JSON_stringify 0 (JObj [("total", total)]))
  | _ =>
      let terms := applyLimit (ListTermsInput.limit args) terms in
      let result := JObj [("terms", JArr terms); ("total", total)] in
      textResult (JSON_stringify 0 result)
  end.

Definition listTermsForm (args : ListTermsInput.t) (id : number)
  : list (string * string) :=
  let form := [idField id] in
  match ListTermsInput.language args with
  | Some l => if negb (String.eqb l "") then setKey "language" l form else form
  | None => form
  end.

Definition list_terms (args : ListTermsInput.t) : M ToolResult :=
  id <- lift (requireProjectId (option_map number_of_positive (ListTermsInput.project_id args))) ;;
  res <- poeditor "terms/list" (listTermsForm args id) ;;
  terms <- lift (selectTerms args res) ;;
  ret (listTermsOutput args terms).

(** *** list_languages, list_available_languages, add_language *)

Definition list_languages (args : ListLanguagesInput.t) : M ToolResult :=
  id <- lift (requireProjectId (option_map number_of_positive (ListLanguagesInput.project_id args))) ;;
  res <- poeditor "languages/list" [idField id] ;;
  result <- lift (member res "result") ;;
  ret (textResult (JSON_stringify 2 (nullish result (JObj [])))).

Definition list_available_languages : M ToolResult :=
  res <- poeditor "languages/available" [] ;;
  result <- lift (member res "result") ;;
  ret (textResult (JSON_stringify 2 (nullish result (JObj [])))).

Definition add_language (args : AddLanguageInput.t) : M ToolResult :=
  id <- lift (requireProjectId (option_map number_of_positive (AddLanguageInput.project_id args))) ;;
  res <- poeditor "languages/add"
           [idField id; ("language", AddLanguageInput.language args)] ;;
  result <- lift (member res "result") ;;
  ret (textResult (JSON_stringify 2 (nullish result (JObj [])))).

(** *** add_terms_with_translations *)

(** Step 1: the record of one item in the data of terms/add. *)
Definition termRecord (item : AddTermsWithTranslationsInput.item) : JSValue :=
  JObj [("term", JStr (AddTermsWithTranslationsInput.term item));
        ("context", optString (AddTermsWithTranslationsInput.context item));
        ("reference", optString (AddTermsWithTranslationsInput.reference item));
        ("tags", optStrings (AddTermsWithTranslationsInput.tags item))].

(** Step 2: the record of one item in the data of translations/add. *)
Definition translationPayload (item : AddTermsWithTranslationsInput.item) : JSValue :=
  let tr := AddTermsWithTranslationsInput.translation item in
  JObj [("term", JStr (AddTermsWithTranslationsInput.term item));
        ("context",
          JStr match AddTermsWithTranslationsInput.context item with
               | Some c => c
               | None => ""
               end);
        ("translation",
          match AddTermsWithTranslationsInput.plural tr with
          | Some p => JObj [("plural", pluralValue p)]
          | None =>
              JObj [("content", JStr (AddTermsWithTranslationsInput.content tr));
                    ("fuzzy", JNum (number_of_Z
                       match AddTermsWithTranslationsInput.fuzzy tr with
                       | Some true => 1
                       | _ => 0
                       end))]
          end)].

Definition termsAddForm (args : AddTermsWithTranslationsInput.t) (id : number)
  : list (string * string) :=
  let termData :=
    JSON_stringify 0 (JArr (map termRecord (AddTermsWithTranslationsInput.items args))) in
  [idField id; ("data", formValue termData)].

Definition translationsAddForm (args : AddTermsWithTranslationsInput.t) (id : number)
  : list (string * string) :=
  let translationData :=
    JSON_stringify 0
      (JArr (map translationPayload (AddTermsWithTranslationsInput.items args))) in
  [idField id; ("language", AddTermsWithTranslationsInput.language args);
   ("data", formValue translationData)].

Definition add_terms_with_translations (args : AddTermsWithTranslationsInput.t)
  : M ToolResult :=
  id <- lift (requireProjectId
                (option_map number_of_positive (AddTermsWithTranslationsInput.project_id args))) ;;
  termRes <- poeditor "terms/add" (termsAddForm args id) ;;
  translationRes <- poeditor "translations/add" (translationsAddForm args id) ;;
  termResult <- lift (member termRes "result") ;;
  translationResult <- lift (member translationRes "result") ;;
  let result :=
    JObj [("terms_added", nullish (optChain termResult "terms") termResult);
          ("translations_added", nullish translationResult (JObj []))] in
  ret (textResult (JSON_stringify 2 result)).

(** *** The tools the server registers *)

Inductive ToolCall : Type :=
| CallAddTranslations (args : TranslationsInput.t)
| CallUpdateTranslations (args : TranslationsInput.t)
| CallListTerms (args : ListTermsInput.t)
| CallListLanguages (args : ListLanguagesInput.t)
| CallListAvailableLanguages
| CallAddLanguage (args : AddLanguageInput.t)
| CallAddTermsWithTranslations (args : AddTermsWithTranslationsInput.t).

Definition callTool (c : ToolCall) : M ToolResult :=
  match c with
  | CallAddTranslations args => add_translations args
  | CallUpdateTranslations args => update_translations args
  | CallListTerms args => list_terms args
  | CallListLanguages args => list_languages args
  | CallListAvailableLanguages => list_available_languages
  | CallAddLanguage args => add_language args
  | CallAddTermsWithTranslations args => add_terms_with_translations args
  end.

(** The identifier a call carries, when its tool takes one. *)
Definition callProjectId (c : ToolCall) : option (option positive) :=
  match c with
  | CallAddTranslations args => Some (TranslationsInput.project_id args)
  | CallUpdateTranslations args => Some (TranslationsInput.project_id args)
  | CallListTerms args => Some (ListTermsInput.project_id args)
  | CallListLanguages args => Some (ListLanguagesInput.project_id args)
  | CallListAvailableLanguages => None
  | CallAddLanguage args => Some (AddLanguageInput.project_id args)
  | CallAddTermsWithTranslations args =>
      Some (AddTermsWithTranslationsInput.project_id args)
  end.

End Server.

(** ** A runtime to run the handlers with

    [parseJSON] reads the JSON grammar and [stringToNumber] the numeric
    literals of [Number], on strings of 8-bit code units.  An object lists
    its members in the order of its properties, an escape is written in
    UTF-8, and a surrogate that is not part of a pair has no writing in
    text, so a document with one is not read.  A literal in the range of the
    doubles is kept as written (digits and exponent) instead of being
    rounded to the nearest double, and the lowering of this runtime is
    [foldASCII].  The general theorems below do not depend on this
    instance. *)

Definition isWhite (c : ascii) : bool :=
  let n := nat_of_ascii c in
  (n =? 32)%nat || (n =? 9)%nat || (n =? 10)%nat || (n =? 13)%nat.

Fixpoint skipWhite (s : string) : string :=
  match s with
  | String c r => if isWhite c then skipWhite r else s
  | EmptyString => s
  end.

Definition digitOf (c : ascii) : option N :=
  let n := nat_of_ascii c in
  if (48 <=? n)%nat && (n <=? 57)%nat then Some (N.of_nat (n - 48)) else None.

Definition hexOf (c : ascii) : option N :=
  let n := nat_of_ascii c in
  if (48 <=? n)%nat && (n <=? 57)%nat then Some (N.of_nat (n - 48))
  else if (97 <=? n)%nat && (n <=? 102)%nat then Some (N.of_nat (n - 87))
  else if (65 <=? n)%nat && (n <=? 70)%nat then Some (N.of_nat (n - 55))
  else None.

(** Reads digits of the given radix: their value after [acc], how many
    there were, and the rest of the string. *)
Fixpoint readDigits (digit : ascii -> option N) (radix : N) (acc : N) (count : nat)
  (s : string) : N * nat * string :=
  match s with
  | String c r =>
      match digit c with
      | Some d => readDigits digit radix (acc * radix + d)%N (S count) r
      | None => (acc, count, s)
      end
  | EmptyString => (acc, count, s)
  end.

(** The exponent part of a literal, if there is one. *)
Definition readExponent (s : string) : option (Z * string) :=
  match s with
  | String c r =>
      if (nat_of_ascii c =? 101)%nat || (nat_of_ascii c =? 69)%nat then
        let '(negative, r) :=
          match r with
          | String d r' =>
              if (nat_of_ascii d =? 45)%nat then (true, r')
              else if (nat_of_ascii d =? 43)%nat then (false, r')
              else (false, r)
          | EmptyString => (false, r)
          end in
        let '(v, n, rest) := readDigits digitOf 10 0 0 r in
        match n with
        | O => None
        | _ => Some (if negative then (- Z.of_N v)%Z else Z.of_N v, rest)
        end
      else Some (0%Z, s)
  | EmptyString => Some (0%Z, s)
  end.

(** The number a decimal literal denotes: one whose value is at most
    [2^-1075], half the least double, is zero, and one whose value is at
    least [2^1024 - 2^970], half a step above the greatest double, is an
    infinity; in between the literal is kept as written.  The number of
    digits of the mantissa settles all but the literals next to the two
    bounds. *)
Definition literalValue (negative : bool) (mantissa : N) (e : Z) : number :=
  let m := Z.of_N mantissa in
  let magnitude := (e + Z.of_nat (String.length (decimalN mantissa)))%Z in
  let tiny :=
    if (magnitude <? -330)%Z then true
    else if (-300 <? magnitude)%Z then false
    else (m * 2 ^ 1075 <=? 10 ^ (- e))%Z in
  let huge :=
    if (311 <? magnitude)%Z then true
    else if (magnitude <? 300)%Z then false
    else if (0 <=? e)%Z then (2 ^ 1024 - 2 ^ 970 <=? m * 10 ^ e)%Z
    else ((2 ^ 1024 - 2 ^ 970) * 10 ^ (- e) <=? m)%Z in
  if (mantissa =? 0)%N then Finite 0 0
  else if tiny then Finite 0 0
  else if huge then Infinity negative
  else Finite (if negative then (- m)%Z else m) e.

(** A JSON number: an optional minus sign, an integer part with no
    leading zero, an optional fraction and an optional exponent. *)
Definition parseNumber (s : string) : option (number * string) :=
  let '(negative, s1) :=
    match s with
    | String c r => if (nat_of_ascii c =? 45)%nat then (true, r) else (false, s)
    | EmptyString => (false, s)
    end in
  let '(int, n, s2) := readDigits digitOf 10 0 0 s1 in
  let leadingZero :=
    match s1 with
    | String c _ => (nat_of_ascii c =? 48)%nat && (1 <? n)%nat
    | EmptyString => false
    end in
  if (n =? 0)%nat || leadingZero then None else
  let fraction :=
    match s2 with
    | String c r =>
        if (nat_of_ascii c =? 46)%nat then
          let '(v, k, s3) := readDigits digitOf 10 int 0 r in
          match k with
          | O => None
          | _ => Some (v, k, s3)
          end
        else Some (int, O, s2)
    | EmptyString => Some (int, O, s2)
    end in
  match fraction with
  | None => None
  | Some (mantissa, k, s3) =>
      match readExponent s3 with
      | None => None
      | Some (e, s4) => Some (literalValue negative mantissa (e - Z.of_nat k), s4)
      end
  end.

(** The bytes of a code point in UTF-8. *)
Definition utf8 (n : N) : string :=
  let byte (x : N) : string := String (ascii_of_N x) "" in
  if (n <? 128)%N then byte n
  else if (n <? 2048)%N then byte (192 + n / 64)%N ++ byte (128 + n mod 64)%N
  else if (n <? 65536)%N then
    byte (224 + n / 4096)%N ++ byte (128 + (n / 64) mod 64)%N ++ byte (128 + n mod 64)%N
  else
    byte (240 + n / 262144)%N ++ byte (128 + (n / 4096) mod 64)%N
      ++ byte (128 + (n / 64) mod 64)%N ++ byte (128 + n mod 64)%N.

(** Four hexadecimal digits: the code unit they write, and the rest. *)
Definition readUnit (s : string) : option (N * string) :=
  match s with
  | String h1 (String h2 (String h3 (String h4 r))) =>
      match hexOf h1, hexOf h2, hexOf h3, hexOf h4 with
      | Some a, Some b, Some c, Some d => Some (((a * 16 + b) * 16 + c) * 16 + d, r)%N
      | _, _, _, _ => None
      end
  | _ => None
  end.

(** What follows the u of an escape: a code point, written by one code unit
    or by the two of a surrogate pair, and the rest. *)
Definition readCodePoint (s : string) : option (N * string) :=
  match readUnit s with
  | None => None
  | Some (u, r) =>
      if ((55296 <=? u) && (u <? 56320))%N then
        match r with
        | String b (String x r') =>
            if ((nat_of_ascii b =? 92) && (nat_of_ascii x =? 117))%nat then
              match readUnit r' with
              | Some (v, r'') =>
                  if ((56320 <=? v) && (v <? 57344))%N
                  then Some (65536 + (u - 55296) * 1024 + (v - 56320), r'')%N
                  else None
              | None => None
              end
            else None
        | _ => None
        end
      else if ((56320 <=? u) && (u <? 57344))%N then None
      else Some (u, r)
  end.

(** The characters of a JSON string, after its opening quote. *)
Fixpoint parseChars (fuel : nat) (acc : string) (s : string) : option (string * string) :=
  match fuel with
  | O => None
  | S f =>
      match s with
      | EmptyString => None
      | String c r =>
          let n := nat_of_ascii c in
          if (n =? 34)%nat then Some (acc, r)
          else if (n <? 32)%nat then None
          else if (n =? 92)%nat then
            match r with
            | String e r' =>
                let one (x : nat) := parseChars f (acc ++ String (ascii_of_nat x) "") r' in
                let m := nat_of_ascii e in
                if (m =? 34)%nat then one 34%nat
                else if (m =? 92)%nat then one 92%nat
                else if (m =? 47)%nat then one 47%nat
                else if (m =? 98)%nat then one 8%nat
                else if (m =? 102)%nat then one 12%nat
                else if (m =? 110)%nat then one 10%nat
                else if (m =? 114)%nat then one 13%nat
                else if (m =? 116)%nat then one 9%nat
                else if (m =? 117)%nat then
                  match readCodePoint r' with
                  | Some (p, r'') => parseChars f (acc ++ utf8 p) r''
                  | None => None
                  end
                else None
            | EmptyString => None
            end
          else parseChars f (acc ++ String c "") r
      end
  end.

Definition expect (word : string) (v : JSValue) (s : string) : option (JSValue * string) :=
  if prefix word s then Some (v, dropString (String.length word) s) else None.

Definition startsWith (code : nat) (s : string) : option string :=
  match s with
  | String c r => if (nat_of_ascii c =? code)%nat then Some r else None
  | EmptyString => None
  end.

Fixpoint parseValue (fuel : nat) (s : string) : option (JSValue * string) :=
  match fuel with
  | O => None
  | S f =>
      match skipWhite s with
      | EmptyString => None
      | String c r as s' =>
          let n := nat_of_ascii c in
          if (n =? 123)%nat then
            match startsWith 125 (skipWhite r) with
            | Some rest => Some (JObj [], rest)
            | None => parseMembers f [] r
            end
          else if (n =? 91)%nat then
            match startsWith 93 (skipWhite r) with
            | Some rest => Some (JArr [], rest)
            | None => parseElements f [] r
            end
          else if (n =? 34)%nat then
            match parseChars (S (String.length r)) "" r with
            | Some (x, rest) => Some (JStr x, rest)
            | None => None
            end
          else if (n =? 116)%nat then expect "true" (JBool true) s'
          else if (n =? 102)%nat then expect "false" (JBool false) s'
          else if (n =? 110)%nat then expect "null" JNull s'
          else
            match parseNumber s' with
            | Some (x, rest) => Some (JNum x, rest)
            | None => None
            end
      end
  end

with parseElements (fuel : nat) (acc : list JSValue) (s : string)
  : option (JSValue * string) :=
  match fuel with
  | O => None
  | S f =>
      match parseValue f s with
      | None => None
      | Some (v, rest) =>
          match skipWhite rest with
          | String c r =>
              if (nat_of_ascii c =? 44)%nat then parseElements f (acc ++ [v])%list r
              else if (nat_of_ascii c =? 93)%nat then Some (JArr (acc ++ [v])%list, r)
              else None
          | EmptyString => None
          end
      end
  end

with parseMembers (fuel : nat) (acc : list (string * JSValue)) (s : string)
  : option (JSValue * string) :=
  match fuel with
  | O => None
  | S f =>
      match startsWith 34 (skipWhite s) with
      | None => None
      | Some r =>
          match parseChars (S (String.length r)) "" r with
          | None => None
          | Some (k, r1) =>
              match startsWith 58 (skipWhite r1) with
              | None => None
              | Some r2 =>
                  match parseValue f r2 with
                  | None => None
                  | Some (v, rest) =>
                      match skipWhite rest with
                      | String c r3 =>
                          if (nat_of_ascii c =? 44)%nat then parseMembers f (setKey k v acc) r3
                          else if (nat_of_ascii c =? 125)%nat
                          then Some (JObj (propertyOrder (setKey k v acc)), r3)
                          else None
                      | EmptyString => None
                      end
                  end
              end
          end
      end
  end.

Definition parseJSON (s : string) : option JSValue :=
  match parseValue (2 * String.length s + 2) s with
  | Some (v, rest) =>
      match skipWhite rest with
      | EmptyString => Some v
      | _ => None
      end
  | None => None
  end.

Definition isStrWhite (c : ascii) : bool :=
  let n := nat_of_ascii c in
  ((9 <=? n)%nat && (n <=? 13)%nat) || (n =? 32)%nat.

Fixpoint trimLeft (s : string) : string :=
  match s with
  | String c r => if isStrWhite c then trimLeft r else s
  | EmptyString => s
  end.

Fixpoint trimRight (s : string) : string :=
  match s with
  | EmptyString => EmptyString
  | String c r =>
      let r' := trimRight r in
      if isStrWhite c && String.eqb r' "" then EmptyString else String c r'
  end.

Definition binaryOf (c : ascii) : option N :=
  match digitOf c with
  | Some d => if (d <? 2)%N then Some d else None
  | None => None
  end.

Definition octalOf (c : ascii) : option N :=
  match digitOf c with
  | Some d => if (d <? 8)%N then Some d else None
  | None => None
  end.

(** The literals 0x.., 0o.. and 0b.. *)
Definition radixLiteral (s : string) : option number :=
  match s with
  | String z (String x r) =>
      if (nat_of_ascii z =? 48)%nat then
        let n := nat_of_ascii (lowerChar x) in
        let digits :=
          if (n =? 120)%nat then Some (hexOf, 16%N)
          else if (n =? 111)%nat then Some (octalOf, 8%N)
          else if (n =? 98)%nat then Some (binaryOf, 2%N)
          else None in
        match digits with
        | Some (digit, radix) =>
            match readDigits digit radix 0 0 r with
            | (v, S _, EmptyString) => Some (literalValue false v 0)
            | _ => Some NaN
            end
        | None => None
        end
      else None
  | _ => None
  end.

(** [Number(s)] on a string: white space around the literal is dropped, the
    empty string is zero, and what is no numeric literal is NaN. *)
Definition stringToNumber (s : string) : number :=
  let t := trimRight (trimLeft s) in
  if String.eqb t "" then Finite 0 0 else
  match radixLiteral t with
  | Some n => n
  | None =>
      let '(negative, u) :=
        match t with
        | String c r =>
            if (nat_of_ascii c =? 45)%nat then (true, r)
            else if (nat_of_ascii c =? 43)%nat then (false, r)
            else (false, t)
        | EmptyString => (false, t)
        end in
      if String.eqb u "Infinity" then Infinity negative else
      let '(int, n, s2) := readDigits digitOf 10 0 0 u in
      let '(mantissa, k, s3) :=
        match s2 with
        | String c r =>
            if (nat_of_ascii c =? 46)%nat then readDigits digitOf 10 int 0 r
            else (int, O, s2)
        | EmptyString => (int, O, s2)
        end in
      if (n + k =? 0)%nat then NaN else
      match readExponent s3 with
      | Some (e, EmptyString) => literalValue negative mantissa (e - Z.of_nat k)
      | _ => NaN
      end
  end.

Definition foldASCII_nonempty (s : string) : foldASCII s = "" -> s = "" :=
  match s with
  | EmptyString => fun _ => eq_refl
  | String c r =>
      fun H : String (lowerChar c) (foldASCII r) = "" =>
        match H in _ = e return match e with EmptyString => String c r = "" | String _ _ => True end
        with eq_refl => I end
  end.

#[export] Instance ModelRuntime : JSRuntime := {|
  JSON_parse := parseJSON;
  Number := stringToNumber;
  toLowerCase := foldASCII;
  Number_empty := eq_refl;
  toLowerCase_ascii := fun s _ => eq_refl;
  toLowerCase_nonempty := foldASCII_nonempty
|}.

(** ** Notions the statements are written with *)

(** Two code units are the same letter when they are equal or are the
    upper-case and the lower-case form of one letter. *)
Definition isUpper (c : ascii) : Prop :=
  (65 <= nat_of_ascii c /\ nat_of_ascii c <= 90)%nat.

Definition SameLetter (a b : ascii) : Prop :=
  a = b
  \/ (isUpper a /\ nat_of_ascii b = nat_of_ascii a + 32)%nat
  \/ (isUpper b /\ nat_of_ascii a = nat_of_ascii b + 32)%nat.

Inductive EqualIgnoringCase : string -> string -> Prop :=
| EIC_empty : EqualIgnoringCase EmptyString EmptyString
| EIC_letter (a b : ascii) (s t : string) :
    SameLetter a b -> EqualIgnoringCase s t ->
    EqualIgnoringCase (String a s) (String b t).

(** [s] occurs in [t] when case is ignored. *)
Definition CISubstring (s t : string) : Prop :=
  exists pre mid post, t = pre ++ mid ++ post /\ EqualIgnoringCase mid s.

(** A field of a reduced term is text in which the search text occurs when
    the case of the letters A to Z is ignored. *)
Definition FieldMatches (s : string) (v : JSValue) : Prop :=
  exists x, v = JStr x /\ CISubstring s x.

Definition TermMatches (s : string) (t : JSValue) : Prop :=
  FieldMatches s (getProp t "term")
  \/ FieldMatches s (getProp t "context")
  \/ FieldMatches s (getProp t "translation").

(** A reduced term as the remote service provides it: the term is text, the
    context and the translation are text or absent. *)
Definition isText (v : JSValue) : Prop := exists x, v = JStr x.
Definition isOptionalText (v : JSValue) : Prop := v = JUndefined \/ isText v.

Definition TextTerm (t : JSValue) : Prop :=
  isText (getProp t "term")
  /\ isOptionalText (getProp t "context")
  /\ isOptionalText (getProp t "translation").

(** The values that are no object and no array. *)
Definition isPrimitive (v : JSValue) : bool :=
  match v with
  | JArr _ | JObj _ => false
  | _ => true
  end.

(** The value a record carries under key [k] once serialised; [None] when
    the record is sent without that key. *)
Definition sentMember (k : string) (record : JSValue) : option JSValue :=
  match toJSON record with
  | Some (JObj ms) => lookupKey k ms
  | _ => None
  end.

(** The members of a plural map that are there. *)
Definition pluralMembers (p : PluralForms) : list (string * JSValue) :=
  let present (k : string) (o : option string) : list (string * JSValue) :=
    match o with
    | Some s => [(k, JStr s)]
    | None => []
    end in
  (present "one" (one p) ++ present "few" (few p)
     ++ present "many" (many p) ++ present "other" (other p))%list.

(** The record of one item as add_translations and update_translations
    transmit it. *)
Definition sentTranslationBody (content : string) (fuzzy : option bool)
  (plural : option PluralForms) : JSValue :=
  match plural with
  | Some p => JObj [("plural", JObj (pluralMembers p))]
  | None =>
      JObj [("content", JStr content);
            ("fuzzy", JNum (number_of_Z match fuzzy with Some true => 1 | _ => 0 end))]
  end.


(** The test of the search filter on a field and on a reduced term whose
    fields are text or absent. *)
Definition searchTest {rt : JSRuntime} (s : string) (v : JSValue) : bool :=
  match v with
  | JStr x => includes (toLowerCase x) (toLowerCase s)
  | _ => false
  end.

Definition searchKeeps {rt : JSRuntime} (s : string) (t : JSValue) : bool :=
  searchTest s (getProp t "term")
  || searchTest s (getProp t "context")
  || searchTest s (getProp t "translation").

(** ** Concrete configurations, services and calls *)

Module Demo.

Definition cfg (default : option string) : Config :=
  {| API_BASE := "https://api.poeditor.com/v2";
     API_TOKEN := "secret";
     PROJECT_ID := default |}.

(** A service that answers the n-th request with the n-th reply. *)
Definition scripted (replies : list NetReply) : Remote :=
  fun w _ => nth (List.length w) replies (ReplyFailed (TransportError "connection refused")).


Definition failureJson : JSValue :=
  JObj [("response", JObj [("status", JStr "fail"); ("code", JStr "4043");
                           ("message", JStr "Wrong api_token")])].

Definition failure : string := render "" "" failureJson.

Definition failureWithoutMessageJson : JSValue :=
  JObj [("response", JObj [("status", JStr "fail"); ("code", JStr "4048")])].

Definition failureWithoutMessage : string := render "" "" failureWithoutMessageJson.

Definition successJson (result : JSValue) : JSValue :=
  JObj [("response", JObj [("status", JStr "success"); ("code", JStr "200");
                           ("message", JStr "OK")]);
        ("result", result)].

Definition success (result : JSValue) : string := render "" "" (successJson result).

Definition badGateway : string := "<html>502 Bad Gateway</html>".

Definition termsAdded : JSValue :=
  JObj [("terms", JObj [("parsed", JNum (Finite 2 0)); ("added", JNum (Finite 2 0))])].

Definition translationsAdded : JSValue :=
  JObj [("translations", JObj [("parsed", JNum (Finite 2 0)); ("added", JNum (Finite 2 0))])].

Definition greetings : JSValue :=
  JObj [("terms", JArr [JObj [("term", JStr "Hello world")];
                        JObj [("term", JStr "Goodbye")]])].

(** A term with a plural translation, as the service lists it. *)
Definition pluralTerms : JSValue :=
  JObj [("terms",
          JArr [JObj [("term", JStr "file"); ("context", JStr "");
                      ("translation",
                        JObj [("content", JObj [("one", JStr "Datei");
                                                ("other", JStr "Dateien")])])]])].

(** A term with a plural translation listed before a term with a plain
    one. *)
Definition mixedTerms : JSValue :=
  JObj [("terms",
          JArr [JObj [("term", JStr "file"); ("context", JStr "");
                      ("translation",
                        JObj [("content", JObj [("one", JStr "Datei");
                                                ("other", JStr "Dateien")])])];
                JObj [("term", JStr "Hello"); ("context", JStr "");
                      ("translation", JObj [("content", JStr "Hallo")])]])].

(** A failure reply whose message is an object with a member toString. *)
Definition failureObjectMessageJson : JSValue :=
  JObj [("response", JObj [("status", JStr "fail"); ("code", JStr "4043");
                           ("message", JObj [("toString", JNum (Finite 1 0))])])].

Definition failureObjectMessage : string := render "" "" failureObjectMessageJson.

(** A call that carries no project identifier. *)
Definition anonymousCall : ToolCall :=
  CallListLanguages {| ListLanguagesInput.project_id := None |}.

(** A string between double quotes. *)
Definition q (s : string) : string := dquote ++ s ++ dquote.

Definition remoteTerms : JSValue :=
  JObj [("terms",
          JArr [JObj [("term", JStr "Hello world"); ("context", JStr "");
                      ("translation", JObj [("content", JStr "Hallo Welt"); ("fuzzy", JNum (Finite 0 0))])];
                JObj [("term", JStr "Goodbye"); ("context", JStr "farewell");
                      ("translation", JObj [("content", JStr ""); ("fuzzy", JNum (Finite 0 0))])]])].

Definition listArgs (search : option string) (count_only : option bool) : ListTermsInput.t :=
  {| ListTermsInput.project_id := Some 7%positive;
     ListTermsInput.language := Some "de";
     ListTermsInput.limit := None;
     ListTermsInput.search := search;
     ListTermsInput.count_only := count_only;
     ListTermsInput.fields := None |}.

Definition plainItem : TranslationsInput.item :=
  {| TranslationsInput.term := "Save";
     TranslationsInput.context := None;
     TranslationsInput.content := "Speichern";
     TranslationsInput.fuzzy := Some true;
     TranslationsInput.plural := None |}.

Definition pluralItem : TranslationsInput.item :=
  {| TranslationsInput.term := "file";
     TranslationsInput.context := Some "count";
     TranslationsInput.content := "";
     TranslationsInput.fuzzy := None;
     TranslationsInput.plural :=
       Some {| one := Some "Datei"; few := None; many := None; other := Some "Dateien" |} |}.

Definition translationsArgs : TranslationsInput.t :=
  {| TranslationsInput.project_id := Some 7%positive;
     TranslationsInput.language := "de";
     TranslationsInput.items := [plainItem; pluralItem] |}.

(** An item of the compound operation with no explicit context. *)
Definition bareItem : AddTermsWithTranslationsInput.item :=
  {| AddTermsWithTranslationsInput.term := "Save";
     AddTermsWithTranslationsInput.context := None;
     AddTermsWithTranslationsInput.reference := None;
     AddTermsWithTranslationsInput.tags := None;
     AddTermsWithTranslationsInput.translation :=
       {| AddTermsWithTranslationsInput.content := "Speichern";
          AddTermsWithTranslationsInput.fuzzy := None;
          AddTermsWithTranslationsInput.plural := None |} |}.

Definition contextItem : AddTermsWithTranslationsInput.item :=
  {| AddTermsWithTranslationsInput.term := "Open";
     AddTermsWithTranslationsInput.context := Some "menu";
     AddTermsWithTranslationsInput.reference := Some "app.tsx";
     AddTermsWithTranslationsInput.tags := Some ["ui"];
     AddTermsWithTranslationsInput.translation :=
       {| AddTermsWithTranslationsInput.content := "Oeffnen";
          AddTermsWithTranslationsInput.fuzzy := Some false;
          AddTermsWithTranslationsInput.plural := None |} |}.

Definition compoundArgs (items : list AddTermsWithTranslationsInput.item)
  : AddTermsWithTranslationsInput.t :=
  {| AddTermsWithTranslationsInput.project_id := Some 7%positive;
     AddTermsWithTranslationsInput.language := "de";
     AddTermsWithTranslationsInput.items := items |}.

(** The value of the field [data] of a request. *)
Definition dataOf (rq : Request) : option string := lookupKey "data" (body rq).

End Demo.

(** ** The earlier revision of the server: add_terms

    The file holds an earlier revision of the server as well, whose tool
    add_terms sends the validated terms as they are. *)

Module TermsInput.
Record item : Type := mkItem {
  term : string;
  context : option string;
  reference : option string;
  plural : option string;
  comment : option string;
  tags : option (list string)
}.
Record t : Type := mk {
  project_id : option positive;
  terms : list item
}.
End TermsInput.

Section EarlierServer.
Context {rt : JSRuntime}.
Variable cfg : Config.
Variable remote : Remote.

Local Open Scope js_scope.

(** A validated term as a value: the fields in the order of the schema, an
    absent one undefined. *)
Definition termValue (i : TermsInput.item) : JSValue :=
  JObj [("term", JStr (TermsInput.term i));
        ("context", optString (TermsInput.context i));
        ("reference", optString (TermsInput.reference i));
        ("plural", optString (TermsInput.plural i));
        ("comment", optString (TermsInput.comment i));
        ("tags", optStrings (TermsInput.tags i))].

Definition add_terms (args : TermsInput.t) : M ToolResult :=
  id <- lift (requireProjectId cfg (option_map number_of_positive (TermsInput.project_id args))) ;;
  let data := JSON_stringify 0 (JArr (map termValue (TermsInput.terms args))) in
  res <- poeditor cfg remote "terms/add" [idField id; ("data", formValue data)] ;;
  result <- lift (member res "result") ;;
  ret (textResult (JSON_stringify 2 (nullish (optChain result "terms") result))).

End EarlierServer.

(** ** Notions for the properties of the whole server *)

(** Two fields named by array indices, the first index not above the
    second. *)
Definition indexAscending (a b : string * string) : Prop :=
  exists n m, arrayIndex (fst a) = Some n /\ arrayIndex (fst b) = Some m /\ (n <= m)%N.

(** The endpoints the tools of the server address. *)
Definition endpoints : list string :=
  ["translations/add"; "translations/update"; "terms/list"; "languages/list";
   "languages/available"; "languages/add"; "terms/add"].

(** A request as the adapter builds it: a form-encoded POST to an endpoint
    under the base address, carrying the configured token. *)
Definition AdapterBuilt (cfg : Config) (rq : Request) : Prop :=
  method rq = "POST"
  /\ content_type rq = "application/x-www-form-urlencoded"
  /\ lookupKey "api_token" (body rq) = Some (API_TOKEN cfg)
  /\ exists endpoint, In endpoint endpoints /\ url rq = API_BASE cfg ++ "/" ++ endpoint.

(** The first request a call sends once its identifier [id] is resolved. *)
Definition callRequest (cfg : Config) (c : ToolCall) (id : number) : Request :=
  match c with
  | CallAddTranslations args =>
      adapterRequest cfg "translations/add"
        [idField id; ("language", TranslationsInput.language args);
         ("data", formValue (JSON_stringify 0
                    (JArr (map add_translations_payload (TranslationsInput.items args)))))]
  | CallUpdateTranslations args =>
      adapterRequest cfg "translations/update"
        [idField id; ("language", TranslationsInput.language args);
         ("data", formValue (JSON_stringify 0
                    (JArr (map update_translations_payload (TranslationsInput.items args)))))]
  | CallListTerms args => adapterRequest cfg "terms/list" (listTermsForm args id)
  | CallListLanguages _ => adapterRequest cfg "languages/list" [idField id]
  | CallListAvailableLanguages => adapterRequest cfg "languages/available" []
  | CallAddLanguage args =>
      adapterRequest cfg "languages/add"
        [idField id; ("language", AddLanguageInput.language args)]
  | CallAddTermsWithTranslations args =>
      adapterRequest cfg "terms/add" (termsAddForm args id)
  end.

(** The identifier of a call resolves to [id]; the tool without an
    identifier needs none. *)
Definition Resolves {rt : JSRuntime} (cfg : Config) (c : ToolCall) (id : number) : Prop :=
  match callProjectId c with
  | Some p => requireProjectId cfg (option_map number_of_positive p) = Ok id
  | None => True
  end.

(** The tools that make one call and return its result formatted. *)
Definition isPlainCall (c : ToolCall) : bool :=
  match c with
  | CallListTerms _ | CallAddTermsWithTranslations _ => false
  | _ => true
  end.

(** A reduced term: the three members, in this order, the context and the
    translation undefined or truthy. *)
Definition ReducedShape (r : JSValue) : Prop :=
  exists tv cv xv,
    r = JObj [("term", tv); ("context", cv); ("translation", xv)]
    /\ (cv = JUndefined \/ truthy cv = true)
    /\ (xv = JUndefined \/ truthy xv = true).

(** The record of a term as add_terms transmits it: absent fields are
    left out. *)
Definition presentString (k : string) (o : option string) : list (string * JSValue) :=
  match o with
  | Some s => [(k, JStr s)]
  | None => []
  end.

Definition sentTermRecord (i : TermsInput.item) : JSValue :=
  JObj ((("term", JStr (TermsInput.term i)) :: presentString "context" (TermsInput.context i))
          ++ presentString "reference" (TermsInput.reference i)
          ++ presentString "plural" (TermsInput.plural i)
          ++ presentString "comment" (TermsInput.comment i)
          ++ match TermsInput.tags i with
             | Some l => [("tags", JArr (map JStr l))]
             | None => []
             end)%list.

(** The records of one item as add_terms_with_translations transmits them:
    the one in the data of terms/add leaves absent fields out, the one in
    the data of translations/add always has its three members. *)
Definition sentCompoundTermRecord (i : AddTermsWithTranslationsInput.item) : JSValue :=
  JObj ((("term", JStr (AddTermsWithTranslationsInput.term i))
           :: presentString "context" (AddTermsWithTranslationsInput.context i))
          ++ presentString "reference" (AddTermsWithTranslationsInput.reference i)
          ++ match AddTermsWithTranslationsInput.tags i with
             | Some l => [("tags", JArr (map JStr l))]
             | None => []
             end)%list.

Definition sentCompoundTranslationRecord (i : AddTermsWithTranslationsInput.item) : JSValue :=
  let tr := AddTermsWithTranslationsInput.translation i in
  JObj [("term", JStr (AddTermsWithTranslationsInput.term i));
        ("context",
          JStr match AddTermsWithTranslationsInput.context i with
               | Some c => c
               | None => ""
               end);
        ("translation",
          sentTranslationBody (AddTermsWithTranslationsInput.content tr)
            (AddTermsWithTranslationsInput.fuzzy tr)
            (AddTermsWithTranslationsInput.plural tr))].

(** The member of a transmitted record under key [k]. *)
Definition recordMember (k : string) (record : JSValue) : option JSValue :=
  match record with
  | JObj ms => lookupKey k ms
  | _ => None
  end.

(** The forms of the two requests of add_terms_with_translations, written
    with the records they carry. *)
Definition sentTermsAddForm (args : AddTermsWithTranslationsInput.t) (id : number)
  : list (string * string) :=
  [("id", numberToString id);
   ("data", render "" ""
              (JArr (map sentCompoundTermRecord (AddTermsWithTranslationsInput.items args))))].

Definition sentTranslationsAddForm (args : AddTermsWithTranslationsInput.t) (id : number)
  : list (string * string) :=
  [("id", numberToString id);
   ("language", AddTermsWithTranslationsInput.language args);
   ("data", render "" ""
              (JArr (map sentCompoundTranslationRecord
                         (AddTermsWithTranslationsInput.items args))))].

Module Samples.

Definition fullTerm : TermsInput.item :=
  {| TermsInput.term := "Save";
     TermsInput.context := Some "menu";
     TermsInput.reference := None;
     TermsInput.plural := Some "Saves";
     TermsInput.comment := None;
     TermsInput.tags := Some ["ui"; "core"] |}.

Definition bareTerm : TermsInput.item :=
  {| TermsInput.term := "Open";
     TermsInput.context := None;
     TermsInput.reference := None;
     TermsInput.plural := None;
     TermsInput.comment := None;
     TermsInput.tags := None |}.

Definition termsArgs : TermsInput.t :=
  {| TermsInput.project_id := Some 7%positive;
     TermsInput.terms := [fullTerm; bareTerm] |}.

(** A success reply with no result member. *)
Definition bareSuccessJson : JSValue :=
  JObj [("response", JObj [("status", JStr "success")])].

Definition bareSuccess : string := render "" "" bareSuccessJson.

Definition environment (token base project : option string) (name : string)
  : option string :=
  if String.eqb name "POEDITOR_API_TOKEN" then token
  else if String.eqb name "POEDITOR_API_BASE" then base
  else if String.eqb name "POEDITOR_PROJECT_ID" then project
  else None.

Definition languagesCall : ToolCall :=
  CallListLanguages {| ListLanguagesInput.project_id := Some 7%positive |}.

Definition limitedArgs : ListTermsInput.t :=
  {| ListTermsInput.project_id := Some 7%positive;
     ListTermsInput.language := None;
     ListTermsInput.limit := Some 1%positive;
     ListTermsInput.search := None;
     ListTermsInput.count_only := None;
     ListTermsInput.fields := None |}.

Definition reducedHello : JSValue :=
  JObj [("term", JStr "Hello world"); ("context", JUndefined);
        ("translation", JStr "Hallo Welt")].

Definition reducedGoodbye : JSValue :=
  JObj [("term", JStr "Goodbye"); ("context", JStr "farewell");
        ("translation", JUndefined)].

(** A reduced term whose translation is a plural object. *)
Definition reducedPlural : JSValue :=
  JObj [("term", JStr "file"); ("context", JUndefined);
        ("translation", JObj [("one", JStr "Datei"); ("other", JStr "Dateien")])].

Definition reducedHallo : JSValue :=
  JObj [("term", JStr "Hello"); ("context", JUndefined); ("translation", JStr "Hallo")].

End Samples.

(** ** Strings: searching without regard to case *)

Lemma append_empty_r (s : string) : s ++ "" = s.
Proof. induction s as [|c s IH]; simpl; [reflexivity | now rewrite IH]. Qed.

Lemma append_assoc (a b c : string) : (a ++ b) ++ c = a ++ b ++ c.
Proof. induction a as [|x a IH]; simpl; [reflexivity | now rewrite IH]. Qed.

Lemma prefix_iff (p x : string) :
  prefix p x = true <-> exists post, x = p ++ post.
Proof.
  revert x; induction p as [|a p IH]; intros x.
  - destruct x; simpl; split; intros; eauto.
  - destruct x as [|b x]; simpl.
    + split; [discriminate | intros [post H]; discriminate].
    + destruct (ascii_dec a b) as [->|Hab].
      * rewrite IH. split; intros [post H]; exists post.
        -- now subst.
        -- now injection H.
      * split; [discriminate | intros [post H]; injection H; intros; congruence].
Qed.

Lemma includes_iff (x p : string) :
  includes x p = true <-> exists pre post, x = pre ++ p ++ post.
Proof.
  induction x as [|c r IH].
  - unfold includes. rewrite prefix_iff. split.
    + intros [post H]. exists "", post. exact H.
    + intros [pre [post H]]. destruct pre; [|discriminate]. exists post. exact H.
  - change (includes (String c r) p) with (prefix p (String c r) || includes r p).
    rewrite orb_true_iff, prefix_iff, IH. split.
    + intros [[post H]|[pre [post H]]].
      * exists "", post. exact H.
      * exists (String c pre), post. simpl. now rewrite H.
    + intros [pre [post H]]. destruct pre as [|c' pre].
      * left. exists post. exact H.
      * right. simpl in H. injection H as _ H. exists pre, post. exact H.
Qed.

Lemma includes_suffix (a t : string) : includes (a ++ t) t = true.
Proof.
  apply includes_iff. exists a, "". now rewrite append_empty_r.
Qed.

Lemma foldASCII_app (a b : string) :
  foldASCII (a ++ b) = foldASCII a ++ foldASCII b.
Proof. induction a as [|c a IH]; simpl; [reflexivity | now rewrite IH]. Qed.

Lemma foldASCII_split (t a b : string) :
  foldASCII t = a ++ b ->
  exists t1 t2, t = t1 ++ t2 /\ foldASCII t1 = a /\ foldASCII t2 = b.
Proof.
  revert t; induction a as [|c a IH]; intros t H.
  - exists "", t. auto.
  - destruct t as [|d t]; [discriminate|].
    simpl in H. injection H as Hc H.
    destruct (IH t H) as [t1 [t2 [-> [H1 H2]]]].
    exists (String d t1), t2. simpl. now rewrite Hc, H1.
Qed.

Lemma lowerChar_same (a b : ascii) :
  lowerChar a = lowerChar b <-> SameLetter a b.
Proof.
  unfold lowerChar, SameLetter, isUpper.
  pose proof (nat_ascii_bounded a) as Ba.
  pose proof (nat_ascii_bounded b) as Bb.
  destruct ((65 <=? nat_of_ascii a)%nat && (nat_of_ascii a <=? 90)%nat) eqn:Ua;
    [ apply andb_true_iff in Ua; rewrite !Nat.leb_le in Ua
    | apply andb_false_iff in Ua; rewrite !Nat.leb_gt in Ua ];
    (destruct ((65 <=? nat_of_ascii b)%nat && (nat_of_ascii b <=? 90)%nat) eqn:Ub;
     [ apply andb_true_iff in Ub; rewrite !Nat.leb_le in Ub
     | apply andb_false_iff in Ub; rewrite !Nat.leb_gt in Ub ]).
  - split.
    + intros H. left. apply (f_equal nat_of_ascii) in H.
      rewrite !nat_ascii_embedding in H by lia.
      rewrite <- (ascii_nat_embedding a), <- (ascii_nat_embedding b).
      f_equal. lia.
    + intros [->|[[_ H]|[_ H]]]; [reflexivity | lia | lia].
  - split.
    + intros H. right. left. split; [lia|].
      rewrite <- H. rewrite nat_ascii_embedding by lia. reflexivity.
    + intros [->|[[_ H]|[H _]]]; [lia | | lia].
      rewrite <- H. now rewrite ascii_nat_embedding.
  - split.
    + intros H. right. right. split; [lia|].
      rewrite H. rewrite nat_ascii_embedding by lia. reflexivity.
    + intros [->|[[H _]|[_ H]]]; [lia | lia | ].
      rewrite <- H. now rewrite ascii_nat_embedding.
  - split.
    + intros H. now left.
    + intros [->|[[H _]|[H _]]]; [reflexivity | lia | lia].
Qed.

Lemma foldASCII_same (a b : string) :
  foldASCII a = foldASCII b <-> EqualIgnoringCase a b.
Proof.
  split.
  - revert b; induction a as [|c a IH]; intros [|d b] H; try discriminate.
    + constructor.
    + simpl in H. injection H as Hc H. constructor.
      * now apply lowerChar_same.
      * now apply IH.
  - induction 1 as [|c d a b Hc _ IH]; simpl; [reflexivity|].
    apply lowerChar_same in Hc. now rewrite Hc, IH.
Qed.

(** The test of the search filter is the case-insensitive occurrence. *)
Lemma includes_fold_iff (t s : string) :
  includes (foldASCII t) (foldASCII s) = true <-> CISubstring s t.
Proof.
  rewrite includes_iff. unfold CISubstring. split.
  - intros [pre [post H]].
    destruct (foldASCII_split _ _ _ H) as [t1 [t2 [-> [H1 H2]]]].
    destruct (foldASCII_split _ _ _ H2) as [m [t3 [-> [H3 H4]]]].
    exists t1, m, t3. split; [reflexivity|]. now apply foldASCII_same.
  - intros [pre [mid [post [-> H]]]].
    apply foldASCII_same in H.
    exists (foldASCII pre), (foldASCII post).
    now rewrite !foldASCII_app, H.
Qed.

(** ** Objects: lookup, update and the order of properties *)

Lemma lookupKey_setKey {A : Type} (k k' : string) (v : A) (l : list (string * A)) :
  lookupKey k' (setKey k v l) = if String.eqb k' k then Some v else lookupKey k' l.
Proof.
  induction l as [|[k0 v0] l IH]; simpl.
  - destruct (String.eqb k' k); reflexivity.
  - destruct (String.eqb k k0) eqn:E; simpl.
    + apply String.eqb_eq in E. subst k0. destruct (String.eqb k' k); reflexivity.
    + rewrite IH. destruct (String.eqb k' k0) eqn:E2; [|reflexivity].
      apply String.eqb_eq in E2. subst k0.
      rewrite String.eqb_sym in E. now rewrite E.
Qed.

Lemma lookupKey_removeKey {A : Type} (k k' : string) (l : list (string * A)) :
  lookupKey k' (removeKey k l) = if String.eqb k' k then None else lookupKey k' l.
Proof.
  induction l as [|[k0 v0] l IH]; simpl.
  - destruct (String.eqb k' k); reflexivity.
  - destruct (String.eqb k k0) eqn:E; simpl.
    + apply String.eqb_eq in E. subst k0. rewrite IH.
      destruct (String.eqb k' k); reflexivity.
    + rewrite IH. destruct (String.eqb k' k0) eqn:E2; [|reflexivity].
      apply String.eqb_eq in E2. subst k0.
      rewrite String.eqb_sym in E. now rewrite E.
Qed.

Lemma lookupKey_app {A : Type} (k : string) (a b : list (string * A)) :
  lookupKey k (a ++ b)%list
  = match lookupKey k a with Some v => Some v | None => lookupKey k b end.
Proof.
  induction a as [|[k0 v0] a IH]; simpl; [reflexivity|].
  destruct (String.eqb k k0); [reflexivity | exact IH].
Qed.

Lemma fold_setKey_lookup {A : Type} (k : string) (form acc : list (string * A)) :
  lookupKey k (fold_left (fun acc kv => setKey (fst kv) (snd kv) acc) form acc)
  = match lookupKey k (rev form) with
    | Some v => Some v
    | None => lookupKey k acc
    end.
Proof.
  revert acc. induction form as [|[k0 v0] form IH]; intros acc; simpl; [reflexivity|].
  rewrite IH, lookupKey_app, lookupKey_setKey. simpl.
  destruct (lookupKey k (rev form)); [reflexivity|].
  destruct (String.eqb k k0); reflexivity.
Qed.

Lemma fold_setKey_head {A : Type} (form rest : list (string * A)) (k : string) (v : A) :
  exists v' rest',
    fold_left (fun acc kv => setKey (fst kv) (snd kv) acc) form ((k, v) :: rest)
    = (k, v') :: rest'.
Proof.
  revert v rest. induction form as [|[k0 v0] form IH]; intros v rest; simpl.
  - now exists v, rest.
  - destruct (String.eqb k0 k) eqn:E.
    + apply String.eqb_eq in E. subst k0. apply IH.
    + apply IH.
Qed.

Lemma setKey_fresh {A : Type} (k : string) (v : A) (l : list (string * A)) :
  ~ In k (map fst l) -> setKey k v l = (l ++ [(k, v)])%list.
Proof.
  induction l as [|[k0 v0] l IH]; simpl; intros H; [reflexivity|].
  destruct (String.eqb k k0) eqn:E.
  - apply String.eqb_eq in E. subst k0. exfalso. apply H. now left.
  - rewrite IH; [reflexivity|]. intros Hin. apply H. now right.
Qed.

Lemma fold_setKey_fresh {A : Type} (form acc : list (string * A)) :
  NoDup (map fst (acc ++ form)%list) ->
  fold_left (fun acc kv => setKey (fst kv) (snd kv) acc) form acc = (acc ++ form)%list.
Proof.
  revert acc. induction form as [|[k0 v0] form IH]; intros acc H; simpl.
  - now rewrite app_nil_r.
  - rewrite setKey_fresh.
    + rewrite IH; rewrite <- app_assoc; [reflexivity | exact H].
    + rewrite map_app in H. simpl in H. apply NoDup_remove_2 in H.
      intros Hin. apply H. apply in_or_app. now left.
Qed.

(** The listing of the properties of an object holds the properties of the
    object, each once. *)
Lemma insertIndexed_perm {A : Type} (n : N) (kv : string * A) (l : list (N * (string * A))) :
  Permutation (insertIndexed n kv l) ((n, kv) :: l).
Proof.
  induction l as [|[m x] l IH]; simpl; [apply Permutation_refl|].
  destruct (n <? m)%N; [apply Permutation_refl|].
  eapply Permutation_trans; [apply perm_skip, IH | apply perm_swap].
Qed.

Lemma propertyOrder_perm {A : Type} (l : list (string * A)) :
  Permutation (propertyOrder l) l.
Proof.
  unfold propertyOrder. induction l as [|kv l IH]; simpl; [apply Permutation_refl|].
  unfold isNamed at 1. destruct (arrayIndex (fst kv)) as [n|].
  - eapply Permutation_trans.
    + apply Permutation_app_tail, Permutation_map, insertIndexed_perm.
    + simpl. now apply perm_skip.
  - apply Permutation_sym, Permutation_cons_app, Permutation_sym, IH.
Qed.

Lemma lookupKey_In {A : Type} (k : string) (v : A) (l : list (string * A)) :
  NoDup (map fst l) -> (lookupKey k l = Some v <-> In (k, v) l).
Proof.
  induction l as [|[k0 v0] l IH]; simpl; intros Hnd.
  - split; [discriminate | contradiction].
  - inversion Hnd as [|? ? Hnot Hnd']; subst.
    destruct (String.eqb k k0) eqn:E.
    + apply String.eqb_eq in E. subst k0. split.
      * intros [= ->]. now left.
      * intros [[= ->]|Hin]; [reflexivity|].
        exfalso. apply Hnot. apply (in_map fst) in Hin. exact Hin.
    + apply String.eqb_neq in E. rewrite (IH Hnd'). split.
      * intros Hin. now right.
      * intros [[= -> ->]|Hin]; [contradiction | exact Hin].
Qed.

Lemma lookupKey_perm {A : Type} (k : string) (l l' : list (string * A)) :
  NoDup (map fst l) -> Permutation l' l -> lookupKey k l' = lookupKey k l.
Proof.
  intros Hnd Hp.
  assert (Hnd' : NoDup (map fst l')).
  { eapply Permutation_NoDup; [apply Permutation_map, Permutation_sym, Hp | exact Hnd]. }
  destruct (lookupKey k l') as [v|] eqn:E'.
  - apply (lookupKey_In k v l' Hnd') in E'.
    symmetry. apply (lookupKey_In k v l Hnd).
    eapply Permutation_in; [exact Hp | exact E'].
  - destruct (lookupKey k l) as [v|] eqn:E; [|reflexivity].
    apply (lookupKey_In k v l Hnd) in E.
    apply (Permutation_in _ (Permutation_sym Hp)) in E.
    apply (lookupKey_In k v l' Hnd') in E. congruence.
Qed.

Lemma setKey_keys {A : Type} (k k' : string) (v : A) (l : list (string * A)) :
  In k' (map fst (setKey k v l)) -> k' = k \/ In k' (map fst l).
Proof.
  induction l as [|[k0 v0] l IH]; simpl.
  - intros [H|[]]. now left.
  - destruct (String.eqb k k0) eqn:E; simpl.
    + apply String.eqb_eq in E. subst k0. intros [H|H]; [now left | right; now right].
    + intros [H|H]; [right; now left|].
      destruct (IH H) as [H'|H']; [now left | right; now right].
Qed.

Lemma setKey_NoDup {A : Type} (k : string) (v : A) (l : list (string * A)) :
  NoDup (map fst l) -> NoDup (map fst (setKey k v l)).
Proof.
  induction l as [|[k0 v0] l IH]; simpl; intros Hnd.
  - constructor; [intros [] | constructor].
  - inversion Hnd as [|? ? Hnot Hnd']; subst.
    destruct (String.eqb k k0) eqn:E; simpl.
    + apply String.eqb_eq in E. subst k0. now constructor.
    + apply String.eqb_neq in E. constructor; [|now apply IH].
      intros Hin. destruct (setKey_keys _ _ _ _ Hin) as [H|H]; [congruence | contradiction].
Qed.

Lemma fold_setKey_NoDup {A : Type} (form acc : list (string * A)) :
  NoDup (map fst acc) ->
  NoDup (map fst (fold_left (fun acc kv => setKey (fst kv) (snd kv) acc) form acc)).
Proof.
  revert acc. induction form as [|kv form IH]; intros acc H; simpl; [exact H|].
  apply IH. now apply setKey_NoDup.
Qed.

Lemma token_alone_NoDup (t : string) : NoDup (map fst [("api_token", t)]).
Proof. simpl. constructor; [intros [] | constructor]. Qed.

Lemma formBody_field (cfg : Config) (form : list (string * string)) (k : string) :
  lookupKey k (formBody cfg form)
  = match lookupKey k (rev form) with
    | Some v => Some v
    | None => if String.eqb k "api_token" then Some (API_TOKEN cfg) else None
    end.
Proof.
  unfold formBody.
  rewrite (lookupKey_perm k _ _
             (fold_setKey_NoDup form _ (token_alone_NoDup (API_TOKEN cfg)))
             (propertyOrder_perm _)).
  rewrite fold_setKey_lookup. reflexivity.
Qed.

(** An object none of whose properties is named by an array index lists
    them in the order they were added. *)
Lemma indexedProperties_named {A : Type} (l : list (string * A)) :
  (forall k, In k (map fst l) -> arrayIndex k = None) -> indexedProperties l = [].
Proof.
  induction l as [|kv l IH]; intros H; simpl; [reflexivity|].
  rewrite (H (fst kv)) by now left.
  apply IH. intros k Hk. apply H. now right.
Qed.

Lemma propertyOrder_named {A : Type} (l : list (string * A)) :
  (forall k, In k (map fst l) -> arrayIndex k = None) -> propertyOrder l = l.
Proof.
  intros H. unfold propertyOrder. rewrite (indexedProperties_named l H). simpl.
  induction l as [|kv l IH]; simpl; [reflexivity|].
  unfold isNamed at 1. rewrite (H (fst kv)) by now left.
  rewrite IH; [reflexivity|]. intros k Hk. apply H. now right.
Qed.

(** The properties named by an array index are listed by ascending index. *)
Lemma insertIndexed_sound {A : Type} (n : N) (kv : string * A) (l : list (N * (string * A))) :
  arrayIndex (fst kv) = Some n ->
  Forall (fun x => arrayIndex (fst (snd x)) = Some (fst x)) l ->
  Forall (fun x => arrayIndex (fst (snd x)) = Some (fst x)) (insertIndexed n kv l).
Proof.
  intros Hn. induction 1 as [|[m x] l Hx Hl IH]; simpl.
  - now repeat constructor.
  - destruct (n <? m)%N; repeat constructor; assumption.
Qed.

Lemma indexedProperties_sound {A : Type} (l : list (string * A)) :
  Forall (fun x => arrayIndex (fst (snd x)) = Some (fst x)) (indexedProperties l).
Proof.
  induction l as [|kv l IH]; simpl; [constructor|].
  destruct (arrayIndex (fst kv)) as [n|] eqn:E; [|exact IH].
  now apply insertIndexed_sound.
Qed.

Lemma insertIndexed_sorted {A : Type} (n : N) (kv : string * A) (l : list (N * (string * A))) :
  Sorted (fun a b => (fst a <= fst b)%N) l ->
  Sorted (fun a b => (fst a <= fst b)%N) (insertIndexed n kv l).
Proof.
  induction l as [|[m x] l IH]; simpl; intros Hs.
  - now repeat constructor.
  - inversion Hs as [|? ? Hs' Hhd]; subst.
    destruct (n <? m)%N eqn:E.
    + apply N.ltb_lt in E. constructor; [exact Hs|]. constructor. simpl. lia.
    + apply N.ltb_ge in E. constructor; [now apply IH|].
      destruct l as [|[m' x'] l]; simpl.
      * constructor. simpl. exact E.
      * inversion Hhd; subst. destruct (n <? m')%N; constructor; simpl in *; assumption.
Qed.

Lemma indexedProperties_sorted {A : Type} (l : list (string * A)) :
  Sorted (fun a b => (fst a <= fst b)%N) (indexedProperties l).
Proof.
  induction l as [|kv l IH]; simpl; [constructor|].
  destruct (arrayIndex (fst kv)); [now apply insertIndexed_sorted | exact IH].
Qed.

Lemma indexed_fields_ascending (l : list (N * (string * string))) :
  Forall (fun x => arrayIndex (fst (snd x)) = Some (fst x)) l ->
  Sorted (fun a b => (fst a <= fst b)%N) l ->
  Sorted indexAscending (map snd l).
Proof.
  induction 1 as [|[n x] l Hx Hl IH]; simpl; intros Hs; [constructor|].
  inversion Hs as [|? ? Hs' Hhd]; subst. constructor; [now apply IH|].
  destruct l as [|[m y] l]; simpl; [constructor|].
  inversion Hhd; subst. inversion Hl; subst. constructor.
  unfold indexAscending. simpl in *. exists n, m. now repeat split.
Qed.

Lemma formBody_data (cfg : Config) (before : list (string * string)) (data : string) :
  lookupKey "data" (formBody cfg (before ++ [("data", data)])%list) = Some data.
Proof. rewrite formBody_field, rev_app_distr. reflexivity. Qed.

(** ** The adapter and the resolution of the project identifier *)

Section ServerFacts.
Context {rt : JSRuntime}.
Variable cfg : Config.
Variable remote : Remote.

Lemma strictEqString_iff (v : JSValue) (s : string) :
  strictEqString v s = true <-> v = JStr s.
Proof.
  destruct v; simpl; try (split; [discriminate | intros H; discriminate]).
  rewrite String.eqb_eq. split; [now intros -> | now intros [= ->]].
Qed.

Lemma poeditor_run (endpoint : string) (form : list (string * string)) (w : World) :
  poeditor cfg remote endpoint form w
  = (adapterOutcome (remote w (adapterRequest cfg endpoint form)),
     (w ++ [adapterRequest cfg endpoint form])%list).
Proof.
  unfold poeditor, bind, request, lift, adapterOutcome.
  destruct (remote w (adapterRequest cfg endpoint form)); reflexivity.
Qed.

(** A reply that [poeditor] returns is the parsed text, an object whose
    status is the success marker. *)
Lemma readReply_ok (text : string) (json : JSValue) :
  readReply text = Ok json ->
  JSON_parse text = Some json
  /\ optChain (optChain json "response") "status" = JStr "success"
  /\ isNullish json = false.
Proof.
  unfold readReply. destruct (JSON_parse text) as [j|]; [|discriminate].
  destruct (strictEqString (optChain (optChain j "response") "status") "success") eqn:E;
    simpl;
    [| destruct (ToString _); simpl; [destruct (ToString _); simpl|]; discriminate].
  intros [= <-]. apply strictEqString_iff in E. repeat split; trivial.
  destruct j; try reflexivity; discriminate.
Qed.

Lemma adapterOutcome_ok (reply : NetReply) (json : JSValue) :
  adapterOutcome reply = Ok json -> isNullish json = false.
Proof.
  destruct reply as [text|e]; simpl; [|discriminate].
  intros H. now apply readReply_ok in H.
Qed.

Lemma member_ok (v : JSValue) (k : string) :
  isNullish v = false -> member v k = Ok (getProp v k).
Proof. unfold member. now intros ->. Qed.

(** A call whose identifier cannot be resolved fails before any request. *)
Lemma callTool_unresolved (c : ToolCall) (p : option positive) (e : Exn) (w : World) :
  callProjectId c = Some p ->
  requireProjectId cfg (option_map number_of_positive p) = Throw e ->
  callTool cfg remote c w = (Throw e, w).
Proof.
  destruct c; simpl; intros [= <-] H;
    unfold add_translations, update_translations, list_terms, list_languages,
      add_language, add_terms_with_translations, bind, lift;
    now rewrite H.
Qed.

(** C3: the explicit identifier of a call is returned as it is; without one,
    a configured default that converts to the positive integer [y] gives
    [y]; with neither, the resolution fails with an error that names both
    the parameter of the call and the environment variable, and a tool
    call in that situation sends no request. *)
Theorem requireProjectId_precedence :
  (forall x : positive,
      requireProjectId cfg (Some (number_of_positive x)) = Ok (number_of_positive x))
  /\ (forall (s : string) (y : positive),
         PROJECT_ID cfg = Some s ->
         Number s = number_of_positive y ->
         requireProjectId cfg None = Ok (number_of_positive y))
  /\ (PROJECT_ID cfg = None ->
      requireProjectId cfg None = Throw missingProjectId
      /\ (exists msg,
             missingProjectId = Error msg
             /\ includes msg "project_id" = true
             /\ includes msg "POEDITOR_PROJECT_ID" = true)
      /\ (forall (c : ToolCall) (w : World),
             callProjectId c = Some None ->
             callTool cfg remote c w = (Throw missingProjectId, w))).
Proof.
  split; [|split].
  - intros x. reflexivity.
  - intros s y Hs Hn. unfold requireProjectId. rewrite Hs.
    destruct (String.eqb s "") eqn:E.
    + apply String.eqb_eq in E. subst s.
      pose proof Number_empty as H0. rewrite Hn in H0. discriminate.
    + simpl. rewrite Hn. reflexivity.
  - intros Hnone.
    assert (H : requireProjectId cfg None = Throw missingProjectId).
    { unfold requireProjectId. now rewrite Hnone. }
    split; [exact H|]. split.
    + eexists. split; [reflexivity|]. split; reflexivity.
    + intros c w Hc. now apply (callTool_unresolved c None).
Qed.

(** C10: a default that is set but converts to zero or to NaN is treated as
    no default at all: the resolution raises the missing-identifier error,
    as it does when the variable is not set, and a tool call sends no
    request; a default that converts to another number is returned in
    its converted form. *)
Theorem requireProjectId_default_conversion (s : string) :
  PROJECT_ID cfg = Some s ->
  (truthyNumber (Number s) = false ->
     requireProjectId cfg None = Throw missingProjectId
     /\ requireProjectId cfg None
        = requireProjectId
            {| API_BASE := API_BASE cfg; API_TOKEN := API_TOKEN cfg; PROJECT_ID := None |}
            None
     /\ (forall (c : ToolCall) (w : World),
            callProjectId c = Some None ->
            callTool cfg remote c w = (Throw missingProjectId, w)))
  /\ (truthyNumber (Number s) = true ->
      requireProjectId cfg None = Ok (Number s)).
Proof.
  intros Hs. split.
  - intros Hf.
    assert (H : requireProjectId cfg None = Throw missingProjectId).
    { unfold requireProjectId. rewrite Hs.
      destruct (String.eqb s ""); simpl; [reflexivity | now rewrite Hf]. }
    split; [exact H|]. split; [exact H|].
    intros c w Hc. now apply (callTool_unresolved c None).
  - intros Ht. unfold requireProjectId. rewrite Hs.
    destruct (String.eqb s "") eqn:E.
    + apply String.eqb_eq in E. subst s.
      pose proof Number_empty as H0. congruence.
    + simpl. now rewrite Ht.
Qed.

(** A conversion to a string fails with a type error only. *)
Lemma ToString_throws (v : JSValue) (e : Exn) :
  ToString v = Throw e -> exists msg, e = TypeError msg.
Proof.
  revert v e. fix IH 1. intros v e. destruct v as [| |[|]|n|s|l|ms]; simpl;
    try discriminate.
  - match goal with
    | |- (?j true l = Throw e -> _) =>
        assert (C : forall first e0, j first l = Throw e0 -> exists msg, e0 = TypeError msg);
        [|exact (C true e)]
    end.
    clear e. induction l as [|x l IHl]; intros first e; simpl; [discriminate|].
    destruct (isNullish x).
    + simpl. destruct (_ false l) as [rest|e'] eqn:El; simpl; [discriminate|].
      intros [= <-]. exact (IHl false e' El).
    + destruct (ToString x) as [here|e'] eqn:Ex; simpl.
      * destruct (_ false l) as [rest|e''] eqn:El; simpl; [discriminate|].
        intros [= <-]. exact (IHl false e'' El).
      * intros [= <-]. exact (IH x e' Ex).
  - destruct (lookupKey "toString" ms); [|discriminate].
    intros [= <-]. eexists. reflexivity.
Qed.

Lemma ToString_primitive (v : JSValue) :
  isPrimitive v = true -> exists t, ToString v = Ok t.
Proof.
  destruct v as [| |[|]| | | |]; simpl; try discriminate; intros _; eexists; reflexivity.
Qed.

(** C5, as the code has it: when the body of the reply parses, [poeditor]
    returns the parsed value exactly when its nested status is the success
    marker.  Otherwise it raises: the code, or the empty string for a code
    that is absent or null, and the message, or the generic message for one
    that is absent or falsy, are converted to strings, and the error is made
    of the two strings; every string, number, boolean and null converts, and
    when the conversion of one of the two throws (an object with a toString
    member of its own) a type error is raised in place of that error. *)
Theorem poeditor_status_check
  (endpoint : string) (form : list (string * string)) (w : World)
  (text : string) (json : JSValue) :
  remote w (adapterRequest cfg endpoint form) = ReplyBody text ->
  JSON_parse text = Some json ->
  let status := optChain (optChain json "response") "status" in
  let code := optChain (optChain json "response") "code" in
  let message := optChain (optChain json "response") "message" in
  let shownCode := nullish code (JStr "") in
  let shownMessage := if truthy message then message else JStr "Unknown POEditor error" in
  let outcome := fst (poeditor cfg remote endpoint form w) in
  (outcome = Ok json <-> status = JStr "success")
  /\ (status <> JStr "success" ->
      (forall c m : string,
          ToString shownCode = Ok c -> ToString shownMessage = Ok m ->
          outcome = Throw (Error ("POEditor API error " ++ c ++ ": " ++ m)))
      /\ (isPrimitive shownCode = true -> isPrimitive shownMessage = true ->
          exists c m : string,
            ToString shownCode = Ok c /\ ToString shownMessage = Ok m
            /\ outcome = Throw (Error ("POEditor API error " ++ c ++ ": " ++ m)))
      /\ (((exists e, ToString shownCode = Throw e)
           \/ (exists e, ToString shownMessage = Throw e)) ->
          exists msg, outcome = Throw (TypeError msg)))
  /\ (forall c m : string,
         status <> JStr "success" -> code = JStr c -> message = JStr m -> m <> "" ->
         outcome = Throw (Error ("POEditor API error " ++ c ++ ": " ++ m)))
  /\ (status <> JStr "success" -> message = JUndefined ->
      forall c : string,
        ToString shownCode = Ok c ->
        outcome = Throw (Error ("POEditor API error " ++ c ++ ": Unknown POEditor error"))).
Proof.
  intros Hr Hp status code message shownCode shownMessage outcome.
  assert (Hout : outcome = readReply text).
  { unfold outcome. rewrite poeditor_run, Hr. reflexivity. }
  assert (Hfail : status <> JStr "success" ->
                  outcome
                  = bindO (ToString shownCode) (fun c =>
                    bindO (ToString shownMessage) (fun m =>
                    Throw (Error ("POEditor API error " ++ c ++ ": " ++ m))))).
  { intros Hne. rewrite Hout. unfold readReply. rewrite Hp.
    fold status code message.
    destruct (strictEqString status "success") eqn:E.
    - apply strictEqString_iff in E. contradiction.
    - simpl. unfold shownCode, shownMessage, orElse, unknownError.
      destruct (truthy message); reflexivity. }
  assert (Hboth : status <> JStr "success" ->
                  forall c m : string,
                    ToString shownCode = Ok c -> ToString shownMessage = Ok m ->
                    outcome = Throw (Error ("POEditor API error " ++ c ++ ": " ++ m))).
  { intros Hne c m Hc Hm. rewrite (Hfail Hne), Hc, Hm. reflexivity. }
  split; [|split; [|split]].
  - split.
    + intros H. rewrite Hout in H. apply readReply_ok in H. apply H.
    + intros Hs. rewrite Hout. unfold readReply. rewrite Hp. fold status.
      rewrite Hs. reflexivity.
  - intros Hne. split; [exact (Hboth Hne)|]. split.
    + intros Pc Pm.
      destruct (ToString_primitive _ Pc) as [c Hc].
      destruct (ToString_primitive _ Pm) as [m Hm].
      exists c, m. split; [exact Hc|]. split; [exact Hm|]. now apply Hboth.
    + intros [[e He]|[e He]]; rewrite (Hfail Hne).
      * rewrite He. simpl. destruct (ToString_throws _ _ He) as [msg ->].
        now exists msg.
      * destruct (ToString shownCode) as [c|e'] eqn:Hc; simpl.
        -- rewrite He. simpl. destruct (ToString_throws _ _ He) as [msg ->].
           now exists msg.
        -- destruct (ToString_throws _ _ Hc) as [msg ->]. now exists msg.
  - intros c m Hne Hc Hm Hm0. apply (Hboth Hne).
    + unfold shownCode. rewrite Hc. reflexivity.
    + unfold shownMessage. rewrite Hm. simpl.
      apply String.eqb_neq in Hm0. now rewrite Hm0.
  - intros Hne Hm c Hc. apply (Hboth Hne); [exact Hc|].
    unfold shownMessage. rewrite Hm. reflexivity.
Qed.

(** C6: when the body of the reply does not parse, [poeditor] raises the
    malformed-response error, whose message holds the raw text of the
    reply, and returns no value. *)
Theorem poeditor_malformed_reply
  (endpoint : string) (form : list (string * string)) (w : World) (text : string) :
  remote w (adapterRequest cfg endpoint form) = ReplyBody text ->
  JSON_parse text = None ->
  exists msg,
    poeditor cfg remote endpoint form w
    = (Throw (Error msg), (w ++ [adapterRequest cfg endpoint form])%list)
    /\ msg = "POEditor: invalid JSON response: " ++ text
    /\ includes msg text = true
    /\ (forall v, fst (poeditor cfg remote endpoint form w) <> Ok v).
Proof.
  intros Hr Hp. exists ("POEditor: invalid JSON response: " ++ text).
  assert (H : poeditor cfg remote endpoint form w
              = (Throw (Error ("POEditor: invalid JSON response: " ++ text)),
                 (w ++ [adapterRequest cfg endpoint form])%list)).
  { rewrite poeditor_run, Hr. simpl. unfold readReply. now rewrite Hp. }
  split; [exact H|]. split; [reflexivity|]. split.
  - apply includes_suffix.
  - intros v. rewrite H. discriminate.
Qed.

End ServerFacts.

(** ** The tool contracts *)

Section ToolFacts.
Context {rt : JSRuntime}.
Variable cfg : Config.
Variable remote : Remote.

Lemma toJSON_pluralValue (p : PluralForms) :
  toJSON (pluralValue p) = Some (JObj (pluralMembers p)).
Proof. destruct p as [[a|] [b|] [c|] [d|]]; reflexivity. Qed.



(** Serialising a list of records serialises what each of them becomes. *)
Lemma stringify_records {A : Type} (f g : A -> JSValue) (l : list A) :
  (forall x, toJSON (f x) = Some (g x)) ->
  JSON_stringify 0 (JArr (map f l)) = Some (render "" "" (JArr (map g l))).
Proof.
  intros H. unfold JSON_stringify.
  change (toJSON (JArr (map f l)))
    with (Some (JArr (map (fun x => match toJSON x with Some y => y | None => JNull end)
                          (map f l)))).
  rewrite map_map.
  rewrite (map_ext _ g) by (intros x; now rewrite H).
  reflexivity.
Qed.




(** *** add_terms_with_translations *)

(** The run of the handler, by the outcome of its two calls. *)
Lemma add_terms_with_translations_run
  (args : AddTermsWithTranslationsInput.t) (w : World) (id : number) :
  requireProjectId cfg
    (option_map number_of_positive (AddTermsWithTranslationsInput.project_id args)) = Ok id ->
  let rq1 := adapterRequest cfg "terms/add" (termsAddForm args id) in
  let rq2 := adapterRequest cfg "translations/add" (translationsAddForm args id) in
  add_terms_with_translations cfg remote args w
  = match adapterOutcome (remote w rq1) with
    | Throw e => (Throw e, (w ++ [rq1])%list)
    | Ok termRes =>
        match adapterOutcome (remote (w ++ [rq1])%list rq2) with
        | Throw e => (Throw e, (w ++ [rq1; rq2])%list)
        | Ok translationRes =>
            (Ok (textResult (JSON_stringify 2
                   (JObj [("terms_added",
                            nullish (optChain (getProp termRes "result") "terms")
                                    (getProp termRes "result"));
                          ("translations_added",
                            nullish (getProp translationRes "result") (JObj []))]))),
             (w ++ [rq1; rq2])%list)
        end
    end.
Proof.
  intros Hid rq1 rq2. unfold add_terms_with_translations.
  unfold bind at 1, lift at 1. rewrite Hid.
  unfold bind at 1. rewrite poeditor_run. fold rq1.
  destruct (adapterOutcome (remote w rq1)) as [termRes|e] eqn:E1; [|reflexivity].
  unfold bind at 1. rewrite poeditor_run. fold rq2.
  replace ((w ++ [rq1]) ++ [rq2])%list with (w ++ [rq1; rq2])%list
    by (rewrite <- app_assoc; reflexivity).
  destruct (adapterOutcome (remote (w ++ [rq1])%list rq2)) as [translationRes|e] eqn:E2;
    [|reflexivity].
  unfold bind, lift, ret.
  rewrite (member_ok _ _ (adapterOutcome_ok _ _ E1)).
  rewrite (member_ok _ _ (adapterOutcome_ok _ _ E2)).
  reflexivity.
Qed.

(** C2: the request to terms/add is sent first; when the adapter raises on
    it, the handler fails with that error and translations/add is never
    requested; when the adapter raises on translations/add, the handler
    fails with that error after both requests, and sends nothing more. *)
Theorem compound_call_order
  (args : AddTermsWithTranslationsInput.t) (w : World) (id : number) :
  requireProjectId cfg
    (option_map number_of_positive (AddTermsWithTranslationsInput.project_id args)) = Ok id ->
  let rq1 := adapterRequest cfg "terms/add" (termsAddForm args id) in
  let rq2 := adapterRequest cfg "translations/add" (translationsAddForm args id) in
  let first := adapterOutcome (remote w rq1) in
  let second := adapterOutcome (remote (w ++ [rq1])%list rq2) in
  (forall e, first = Throw e ->
     add_terms_with_translations cfg remote args w = (Throw e, (w ++ [rq1])%list))
  /\ (forall termRes e, first = Ok termRes -> second = Throw e ->
     add_terms_with_translations cfg remote args w = (Throw e, (w ++ [rq1; rq2])%list))
  /\ (forall termRes translationRes, first = Ok termRes -> second = Ok translationRes ->
     exists r,
       add_terms_with_translations cfg remote args w = (Ok r, (w ++ [rq1; rq2])%list))
  /\ url rq1 = API_BASE cfg ++ "/terms/add"
  /\ url rq2 = API_BASE cfg ++ "/translations/add".
Proof.
  intros Hid rq1 rq2 first second.
  pose proof (add_terms_with_translations_run args w id Hid) as Hrun.
  cbv zeta in Hrun. fold rq1 rq2 in Hrun. fold first second in Hrun.
  repeat split.
  - intros e H1. now rewrite Hrun, H1.
  - intros termRes e H1 H2. now rewrite Hrun, H1, H2.
  - intros termRes translationRes H1 H2. rewrite Hrun, H1, H2. eexists. reflexivity.
Qed.

Lemma toJSON_termRecord (item : AddTermsWithTranslationsInput.item) :
  toJSON (termRecord item) = Some (sentCompoundTermRecord item).
Proof.
  destruct item as [t [c|] [r|] [g|] tr]; unfold termRecord, sentCompoundTermRecord;
    simpl; rewrite ?map_map; reflexivity.
Qed.

Lemma toJSON_translationPayload (item : AddTermsWithTranslationsInput.item) :
  toJSON (translationPayload item) = Some (sentCompoundTranslationRecord item).
Proof.
  destruct item as [t c r g [ct f [[[a|] [b|] [d|] [e|]]|]]]; try reflexivity;
    destruct f as [[|]|]; reflexivity.
Qed.

(** The forms of the two requests carry the serialised records. *)
Lemma termsAddForm_sent (args : AddTermsWithTranslationsInput.t) (id : number) :
  termsAddForm args id = sentTermsAddForm args id.
Proof.
  unfold termsAddForm, sentTermsAddForm, idField.
  now rewrite (stringify_records _ _ _ toJSON_termRecord).
Qed.

Lemma translationsAddForm_sent (args : AddTermsWithTranslationsInput.t) (id : number) :
  translationsAddForm args id = sentTranslationsAddForm args id.
Proof.
  unfold translationsAddForm, sentTranslationsAddForm, idField.
  now rewrite (stringify_records _ _ _ toJSON_translationPayload).
Qed.

(** What the handler has sent when it ends: the request to terms/add, and
    after it, unless that call failed, the request to translations/add. *)
Lemma add_terms_with_translations_sent
  (args : AddTermsWithTranslationsInput.t) (w : World) (id : number) :
  requireProjectId cfg
    (option_map number_of_positive (AddTermsWithTranslationsInput.project_id args)) = Ok id ->
  let rq1 := adapterRequest cfg "terms/add" (sentTermsAddForm args id) in
  let rq2 := adapterRequest cfg "translations/add" (sentTranslationsAddForm args id) in
  snd (add_terms_with_translations cfg remote args w)
  = match adapterOutcome (remote w rq1) with
    | Throw _ => (w ++ [rq1])%list
    | Ok _ => (w ++ [rq1; rq2])%list
    end.
Proof.
  intros Hid rq1 rq2.
  rewrite (add_terms_with_translations_run args w id Hid). cbv zeta.
  rewrite termsAddForm_sent, translationsAddForm_sent. fold rq1 rq2.
  destruct (adapterOutcome (remote w rq1)); [|reflexivity].
  destruct (adapterOutcome (remote (w ++ [rq1])%list rq2)); reflexivity.
Qed.

Lemma sent_context_members (item : AddTermsWithTranslationsInput.item) :
  recordMember "context" (sentCompoundTermRecord item)
  = option_map JStr (AddTermsWithTranslationsInput.context item)
  /\ recordMember "context" (sentCompoundTranslationRecord item)
     = Some (JStr match AddTermsWithTranslationsInput.context item with
                  | Some c => c
                  | None => ""
                  end).
Proof.
  split; [|reflexivity]. destruct item as [t [c|] [r|] [g|] tr]; reflexivity.
Qed.

(** C1, as the code has it: the handler sends to terms/add a request whose
    data is the serialised list of the records [sentCompoundTermRecord] of
    the items, and, unless that call fails, to translations/add a request
    whose data is the serialised list of the records
    [sentCompoundTranslationRecord] of the same items in the same order.
    The two records of an item carry the same context when the item has
    one; for an item without a context the record in the data of terms/add
    has no context key, and the record in the data of translations/add has
    the empty string. *)
Theorem compound_context_transmitted
  (args : AddTermsWithTranslationsInput.t) (w : World) (id : number) :
  requireProjectId cfg
    (option_map number_of_positive (AddTermsWithTranslationsInput.project_id args)) = Ok id ->
  let items := AddTermsWithTranslationsInput.items args in
  let data1 := render "" "" (JArr (map sentCompoundTermRecord items)) in
  let data2 := render "" "" (JArr (map sentCompoundTranslationRecord items)) in
  let rq1 := adapterRequest cfg "terms/add" [("id", numberToString id); ("data", data1)] in
  let rq2 :=
    adapterRequest cfg "translations/add"
      [("id", numberToString id);
       ("language", AddTermsWithTranslationsInput.language args);
       ("data", data2)] in
  (forall e, adapterOutcome (remote w rq1) = Throw e ->
     snd (add_terms_with_translations cfg remote args w) = (w ++ [rq1])%list)
  /\ (forall termRes, adapterOutcome (remote w rq1) = Ok termRes ->
     snd (add_terms_with_translations cfg remote args w) = (w ++ [rq1; rq2])%list)
  /\ lookupKey "data" (body rq1) = Some data1
  /\ lookupKey "data" (body rq2) = Some data2
  /\ JSON_stringify 0 (JArr (map termRecord items)) = Some data1
  /\ JSON_stringify 0 (JArr (map translationPayload items)) = Some data2
  /\ forall item : AddTermsWithTranslationsInput.item,
      (forall c, AddTermsWithTranslationsInput.context item = Some c ->
         recordMember "context" (sentCompoundTermRecord item) = Some (JStr c)
         /\ recordMember "context" (sentCompoundTranslationRecord item) = Some (JStr c))
      /\ (AddTermsWithTranslationsInput.context item = None ->
         recordMember "context" (sentCompoundTermRecord item) = None
         /\ recordMember "context" (sentCompoundTranslationRecord item) = Some (JStr "")).
Proof.
  intros Hid items data1 data2 rq1 rq2.
  pose proof (add_terms_with_translations_sent args w id Hid) as Hsent.
  cbv zeta in Hsent. unfold sentTermsAddForm, sentTranslationsAddForm in Hsent.
  fold items in Hsent. fold data1 data2 in Hsent. fold rq1 rq2 in Hsent.
  split; [|split; [|split; [|split; [|split; [|split]]]]].
  - intros e He. now rewrite Hsent, He.
  - intros termRes Hok. now rewrite Hsent, Hok.
  - exact (formBody_data cfg [("id", numberToString id)] data1).
  - exact (formBody_data cfg [("id", numberToString id);
                              ("language", AddTermsWithTranslationsInput.language args)]
             data2).
  - apply (stringify_records _ _ _ toJSON_termRecord).
  - apply (stringify_records _ _ _ toJSON_translationPayload).
  - intros item. destruct (sent_context_members item) as [H1 H2].
    split.
    + intros c Hc. rewrite H1, H2, Hc. split; reflexivity.
    + intros Hc. rewrite H1, H2, Hc. split; reflexivity.
Qed.

End ToolFacts.

(** ** list_terms *)

Section ListTermsFacts.
Context {rt : JSRuntime}.
Variable cfg : Config.
Variable remote : Remote.

(** The run of the handler: one request, then the shaping of its result. *)
Lemma list_terms_run (args : ListTermsInput.t) (w : World) (id : number) :
  requireProjectId cfg (option_map number_of_positive (ListTermsInput.project_id args))
  = Ok id ->
  let rq := adapterRequest cfg "terms/list" (listTermsForm args id) in
  list_terms cfg remote args w
  = (bindO (adapterOutcome (remote w rq)) (fun res =>
     bindO (selectTerms args res) (fun terms => Ok (listTermsOutput args terms))),
     (w ++ [rq])%list).
Proof.
  intros Hid rq. unfold list_terms. unfold bind at 1, lift at 1. rewrite Hid.
  unfold bind at 1. rewrite poeditor_run. fold rq.
  destruct (adapterOutcome (remote w rq)) as [res|e]; [|reflexivity].
  unfold bind, lift, ret. simpl. destruct (selectTerms args res); reflexivity.
Qed.

Lemma applyFields_length (fields : option (list Field)) (terms : list JSValue) :
  List.length (applyFields fields terms) = List.length terms.
Proof.
  destruct fields as [[|f fs]|]; simpl; trivial. apply length_map.
Qed.

Lemma filterO_total {A : Type} (p : A -> Outcome bool) (q : A -> bool) (l : list A) :
  (forall x, In x l -> p x = Ok (q x)) ->
  filterO p l = Ok (filter q l).
Proof.
  induction l as [|x l IH]; intros H; simpl; [reflexivity|].
  rewrite (H x) by now left. simpl.
  rewrite IH by (intros y Hy; apply H; now right). reflexivity.
Qed.

Lemma filter_all {A : Type} (q : A -> bool) (l : list A) :
  (forall x, In x l -> q x = true) -> filter q l = l.
Proof.
  induction l as [|x l IH]; intros H; simpl; [reflexivity|].
  rewrite (H x) by now left. f_equal. apply IH. intros y Hy. apply H. now right.
Qed.

Lemma includes_empty (x : string) : includes x "" = true.
Proof. apply includes_iff. exists "", x. reflexivity. Qed.

Lemma toLowerCase_of_empty : toLowerCase "" = "".
Proof. now rewrite toLowerCase_ascii. Qed.

(** On ASCII text the test of the search filter is the occurrence of the
    search text with case ignored. *)
Lemma searchTest_ascii (s x : string) :
  isASCII s = true -> isASCII x = true ->
  (searchTest s (JStr x) = true <-> CISubstring s x).
Proof.
  intros Hs Hx. unfold searchTest.
  rewrite (toLowerCase_ascii s Hs), (toLowerCase_ascii x Hx).
  apply includes_fold_iff.
Qed.

(** On a term whose fields are text or absent the filter callback raises
    nothing and is [searchKeeps]. *)
Lemma matchesSearch_total (s : string) (t : JSValue) :
  TextTerm t -> matchesSearch (toLowerCase s) t = Ok (searchKeeps s t).
Proof.
  intros [[x Hx] [[Hc|[c Hc]] [Ht|[y Ht]]]];
    unfold matchesSearch, searchKeeps; rewrite Hx, Hc, Ht; simpl;
    repeat match goal with
           | |- context [includes ?a ?b] => destruct (includes a b); simpl
           end; reflexivity.
Qed.

(** Whatever the fields hold, a callback that returns has kept the term
    exactly when one of its fields holds the search text. *)
Lemma lowerIncludes_sound (s : string) (v r : JSValue) :
  lowerIncludes v (toLowerCase s) = Ok r -> truthy r = searchTest s v.
Proof.
  destruct v; simpl; intros [= <-]; reflexivity.
Qed.

Lemma matchesSearch_sound (s : string) (t : JSValue) (b : bool) :
  matchesSearch (toLowerCase s) t = Ok b -> b = searchKeeps s t.
Proof.
  unfold matchesSearch, searchKeeps.
  destruct (lowerIncludes (getProp t "term") (toLowerCase s)) as [r1|] eqn:E1;
    simpl; [|discriminate].
  rewrite <- (lowerIncludes_sound _ _ _ E1).
  destruct (truthy r1); simpl; [now intros [= <-]|].
  destruct (lowerIncludes (getProp t "context") (toLowerCase s)) as [r2|] eqn:E2;
    simpl; [|discriminate].
  rewrite <- (lowerIncludes_sound _ _ _ E2).
  destruct (truthy r2); simpl; [now intros [= <-]|].
  destruct (lowerIncludes (getProp t "translation") (toLowerCase s)) as [r3|] eqn:E3;
    simpl; [|discriminate].
  rewrite <- (lowerIncludes_sound _ _ _ E3). now intros [= <-].
Qed.

Lemma filterO_sound {A : Type} (p : A -> Outcome bool) (q : A -> bool)
  (l kept : list A) :
  (forall x b, p x = Ok b -> b = q x) ->
  filterO p l = Ok kept -> kept = filter q l.
Proof.
  intros Hp. revert kept. induction l as [|x l IH]; simpl; intros kept H.
  - now injection H as <-.
  - destruct (p x) as [b|] eqn:E; simpl in H; [|discriminate].
    destruct (filterO p l) as [ys|]; simpl in H; [|discriminate].
    injection H as <-. rewrite <- (Hp x b E), <- (IH ys eq_refl).
    reflexivity.
Qed.

(** A search that returns, on any remote data, returns exactly the terms
    one of whose fields holds the search text. *)
Lemma applySearch_sound (s : string) (terms kept : list JSValue) :
  s <> "" ->
  applySearch (Some s) terms = Ok kept ->
  kept = filter (searchKeeps s) terms.
Proof.
  intros Hs H. unfold applySearch in H.
  apply String.eqb_neq in Hs. rewrite Hs in H. simpl in H.
  now apply (filterO_sound _ (searchKeeps s)) in H; [|apply matchesSearch_sound].
Qed.

Lemma applySearch_total (s : string) (terms : list JSValue) :
  Forall TextTerm terms ->
  applySearch (Some s) terms = Ok (filter (searchKeeps s) terms).
Proof.
  intros Hall. rewrite Forall_forall in Hall. unfold applySearch.
  destruct (String.eqb s "") eqn:E; simpl.
  - apply String.eqb_eq in E. subst s. f_equal. symmetry. apply filter_all.
    intros t Ht. destruct (Hall t Ht) as [[x Hx] _].
    unfold searchKeeps. rewrite Hx. simpl.
    now rewrite toLowerCase_of_empty, includes_empty.
  - apply filterO_total. intros t Ht. apply matchesSearch_total. now apply Hall.
Qed.

(** On ASCII text [searchKeeps] is the occurrence of the search text in a
    field with case ignored. *)
Lemma searchKeeps_ascii (s : string) (t : JSValue) :
  isASCII s = true ->
  (forall k x, getProp t k = JStr x -> isASCII x = true) ->
  (searchKeeps s t = true <-> TermMatches s t).
Proof.
  intros Hs Ht.
  assert (F : forall k, searchTest s (getProp t k) = true <-> FieldMatches s (getProp t k)).
  { intros k. unfold FieldMatches.
    destruct (getProp t k) as [| | | |x| |] eqn:E;
      try (split; [discriminate | intros [y [Hy _]]; discriminate]).
    rewrite (searchTest_ascii s x Hs (Ht k x E)). split.
    - intros H. now exists x.
    - now intros [y [[= <-] H]]. }
  unfold searchKeeps, TermMatches. rewrite !orb_true_iff, !F. tauto.
Qed.

(** A search over terms whose fields are ASCII text or absent returns
    exactly the terms one of whose fields holds the search text, case
    ignored. *)
Lemma applySearch_text_ascii (s : string) (terms : list JSValue) :
  isASCII s = true ->
  Forall TextTerm terms ->
  Forall (fun t => forall k x, getProp t k = JStr x -> isASCII x = true) terms ->
  exists kept,
    applySearch (Some s) terms = Ok kept
    /\ forall t, In t kept <-> In t terms /\ TermMatches s t.
Proof.
  intros Hs Htext Hascii. exists (filter (searchKeeps s) terms).
  split; [now apply applySearch_total|].
  intros t. rewrite filter_In. rewrite Forall_forall in Hascii. split.
  - intros [Hin Hk]. split; [exact Hin|]. now apply searchKeeps_ascii; [|apply Hascii|].
  - intros [Hin Hm]. split; [exact Hin|]. now apply searchKeeps_ascii; [|apply Hascii|].
Qed.

(** A call that returns has resolved an identifier, received a reply that
    the adapter accepted, and selected its terms without an error. *)
Lemma list_terms_returns (args : ListTermsInput.t) (w : World) (r : ToolResult) :
  fst (list_terms cfg remote args w) = Ok r ->
  exists (id : number) (res : JSValue) (terms kept : list JSValue),
    requireProjectId cfg (option_map number_of_positive (ListTermsInput.project_id args))
    = Ok id
    /\ adapterOutcome (remote w (adapterRequest cfg "terms/list" (listTermsForm args id)))
       = Ok res
    /\ reduceTerms res = Ok terms
    /\ applySearch (ListTermsInput.search args) terms = Ok kept
    /\ r = listTermsOutput args (applyFields (ListTermsInput.fields args) kept).
Proof.
  intros Hr.
  destruct (requireProjectId cfg
              (option_map number_of_positive (ListTermsInput.project_id args)))
    as [id|e] eqn:Hid.
  - rewrite (list_terms_run args w id Hid) in Hr. simpl in Hr.
    destruct (adapterOutcome _) as [res|e] eqn:Hres; simpl in Hr; [|discriminate].
    unfold selectTerms in Hr.
    destruct (reduceTerms res) as [terms|e] eqn:Hred; simpl in Hr; [|discriminate].
    destruct (applySearch (ListTermsInput.search args) terms) as [kept|e] eqn:Hk;
      simpl in Hr; [|discriminate].
    injection Hr as <-. exists id, res, terms, kept. auto.
  - unfold list_terms, bind, lift in Hr. rewrite Hid in Hr. discriminate.
Qed.

(** C7: a list_terms call with count_only that returns, returns one text
    item, the serialised object whose only member is total, the number of
    terms left by the search filter and the projection; and the call does
    return whenever the identifier resolves, the adapter accepts the reply
    and the terms are selected without an error. *)
Theorem list_terms_count_only (args : ListTermsInput.t) (w : World) :
  ListTermsInput.count_only args = Some true ->
  let total (kept : list JSValue) :=
    List.length (applyFields (ListTermsInput.fields args) kept) in
  let output (kept : list JSValue) :=
    textResult (JSON_stringify 0 (JObj [("total", JNum (number_of_nat (total kept)))])) in
  (forall r : ToolResult,
      fst (list_terms cfg remote args w) = Ok r ->
      exists (res : JSValue) (terms kept : list JSValue),
        reduceTerms res = Ok terms
        /\ applySearch (ListTermsInput.search args) terms = Ok kept
        /\ r = output kept)
  /\ (forall (id : number) (res : JSValue) (terms kept : list JSValue),
         requireProjectId cfg
           (option_map number_of_positive (ListTermsInput.project_id args)) = Ok id ->
         let rq := adapterRequest cfg "terms/list" (listTermsForm args id) in
         adapterOutcome (remote w rq) = Ok res ->
         reduceTerms res = Ok terms ->
         applySearch (ListTermsInput.search args) terms = Ok kept ->
         list_terms cfg remote args w = (Ok (output kept), (w ++ [rq])%list))
  /\ (forall kept : list JSValue,
         output kept
         = textResult (Some ("{" ++ quoteJSON "total" ++ ":"
                               ++ numberToString (number_of_nat (total kept)) ++ "}"))
         /\ total kept = List.length kept).
Proof.
  intros Hc total output. split; [|split].
  - intros r Hr.
    destruct (list_terms_returns args w r Hr)
      as [id [res [terms [kept [_ [_ [Hred [Hk ->]]]]]]]].
    exists res, terms, kept. split; [exact Hred|]. split; [exact Hk|].
    unfold listTermsOutput. rewrite Hc. reflexivity.
  - intros id res terms kept Hid rq Hres Hred Hk.
    rewrite (list_terms_run args w id Hid). fold rq. rewrite Hres. simpl.
    unfold selectTerms. rewrite Hred. simpl. rewrite Hk. simpl.
    unfold listTermsOutput. rewrite Hc. reflexivity.
  - intros kept. split; [reflexivity|]. apply applyFields_length.
Qed.

End ListTermsFacts.

(** ** The empty context of a remote term *)

Section EmptyContext.
Context {rt : JSRuntime}.

Lemma mapO_middle {A B : Type} (f : A -> Outcome B) (before after : list A) (x y : A) :
  f x = f y ->
  mapO f (before ++ x :: after)%list = mapO f (before ++ y :: after)%list.
Proof.
  intros H. induction before as [|b before IH]; simpl.
  - now rewrite H.
  - now rewrite IH.
Qed.

Lemma reduceTerm_object (ms : list (string * JSValue)) :
  reduceTerm (JObj ms)
  = Ok (JObj [("term", getProp (JObj ms) "term");
              ("context", orElse (getProp (JObj ms) "context") JUndefined);
              ("translation",
                orElse (optChain (getProp (JObj ms) "translation") "content") JUndefined)]).
Proof. reflexivity. Qed.

(** C9: a remote term whose context is the empty string is reduced to the
    very object a term with no context key is reduced to; its context is
    undefined, so the serialised object, projected or not, has no context
    key, and the terms list_terms selects are the same for both. *)
Theorem empty_context_reduced_as_absent (ms : list (string * JSValue)) :
  let withEmpty := JObj (setKey "context" (JStr "") ms) in
  let without := JObj (removeKey "context" ms) in
  (exists r : JSValue,
      reduceTerm withEmpty = Ok r
      /\ reduceTerm without = Ok r
      /\ getProp r "context" = JUndefined
      /\ sentMember "context" r = None
      /\ (forall fs : list Field, sentMember "context" (projectFields fs r) = None))
  /\ (forall (args : ListTermsInput.t) (before after : list JSValue) (res1 res2 : JSValue),
         isNullish res1 = false ->
         isNullish res2 = false ->
         optChain (getProp res1 "result") "terms" = JArr (before ++ withEmpty :: after)%list ->
         optChain (getProp res2 "result") "terms" = JArr (before ++ without :: after)%list ->
         selectTerms args res1 = selectTerms args res2).
Proof.
  intros withEmpty without.
  assert (Heq : reduceTerm withEmpty = reduceTerm without).
  { unfold withEmpty, without. rewrite !reduceTerm_object. unfold getProp.
    rewrite !lookupKey_setKey, !lookupKey_removeKey. reflexivity. }
  split.
  - exists (JObj [("term", getProp (JObj ms) "term");
                  ("context", JUndefined);
                  ("translation",
                    orElse (optChain (getProp (JObj ms) "translation") "content")
                           JUndefined)]).
    assert (H1 : reduceTerm withEmpty
                 = Ok (JObj [("term", getProp (JObj ms) "term");
                             ("context", JUndefined);
                             ("translation",
                               orElse (optChain (getProp (JObj ms) "translation") "content")
                                      JUndefined)])).
    { unfold withEmpty. rewrite reduceTerm_object. unfold getProp.
      rewrite !lookupKey_setKey. reflexivity. }
    split; [exact H1|]. split; [now rewrite <- Heq|]. split; [reflexivity|].
    generalize (getProp (JObj ms) "term") as tv.
    generalize (orElse (optChain (getProp (JObj ms) "translation") "content") JUndefined) as xv.
    intros xv tv. split.
    + unfold sentMember. simpl. destruct (toJSON tv), (toJSON xv); reflexivity.
    + intros fs. unfold sentMember, projectFields.
      destruct (hasField FTerm fs), (hasField FContext fs), (hasField FTranslation fs);
        simpl; destruct (toJSON tv), (toJSON xv); reflexivity.
  - intros args before after res1 res2 N1 N2 T1 T2.
    unfold selectTerms, reduceTerms.
    rewrite (member_ok _ _ N1), (member_ok _ _ N2). simpl.
    rewrite T1, T2. now rewrite (mapO_middle _ before after _ _ Heq).
Qed.

End EmptyContext.

(** ** Concrete runs *)

Section Runs.
Import Demo.

(** The resolution on a default of 42, on an explicit 7, and with neither. *)
Lemma requireProjectId_precedence_witness :
  requireProjectId (cfg (Some "42")) None = Ok (number_of_positive 42)
  /\ requireProjectId (cfg (Some "42")) (Some (number_of_positive 7))
     = Ok (number_of_positive 7)
  /\ requireProjectId (cfg None) None = Throw missingProjectId
  /\ callTool (cfg None) (scripted []) anonymousCall [] = (Throw missingProjectId, []).
Proof.
  pose proof (requireProjectId_precedence (cfg (Some "42")) (scripted [])) as [H1 [H2 _]].
  pose proof (requireProjectId_precedence (cfg None) (scripted [])) as [_ [_ H3]].
  split; [exact (H2 "42" 42%positive eq_refl eq_refl)|].
  split; [exact (H1 7%positive)|].
  destruct (H3 eq_refl) as [H4 [_ H5]].
  split; [exact H4|].
  exact (H5 anonymousCall [] eq_refl).
Defined.

(** Defaults that convert to zero, to NaN and to 42. *)
Lemma requireProjectId_default_conversion_witness :
  requireProjectId (cfg (Some "0")) None = Throw missingProjectId
  /\ requireProjectId (cfg (Some "abc")) None = requireProjectId (cfg None) None
  /\ callTool (cfg (Some "abc")) (scripted []) anonymousCall [] = (Throw missingProjectId, [])
  /\ requireProjectId (cfg (Some "42")) None = Ok (Finite 42 0).
Proof.
  pose proof (requireProjectId_default_conversion (cfg (Some "0")) (scripted []) "0" eq_refl)
    as [H0 _].
  pose proof (requireProjectId_default_conversion (cfg (Some "abc")) (scripted []) "abc" eq_refl)
    as [Ha _].
  pose proof (requireProjectId_default_conversion (cfg (Some "42")) (scripted []) "42" eq_refl)
    as [_ H42].
  destruct (H0 eq_refl) as [H0' _].
  destruct (Ha eq_refl) as [_ [Ha1 Ha2]].
  split; [exact H0'|]. split; [exact Ha1|]. split; [exact (Ha2 anonymousCall [] eq_refl)|].
  exact (H42 eq_refl).
Defined.

(** A reply with a failure status, with and without a message, and a
    reply with the success status. *)
Lemma poeditor_status_check_witness :
  fst (poeditor (cfg None) (scripted [ReplyBody failure]) "languages/available" [] [])
  = Throw (Error "POEditor API error 4043: Wrong api_token")
  /\ fst (poeditor (cfg None) (scripted [ReplyBody failureWithoutMessage])
            "languages/available" [] [])
     = Throw (Error "POEditor API error 4048: Unknown POEditor error")
  /\ fst (poeditor (cfg None) (scripted [ReplyBody (success termsAdded)])
            "languages/available" [] [])
     = Ok (successJson termsAdded).
Proof.
  split; [|split].
  - refine (proj1 (proj2 (proj2
      (poeditor_status_check (cfg None) (scripted [ReplyBody failure])
         "languages/available" [] [] failure failureJson eq_refl eq_refl)))
      "4043" "Wrong api_token" _ eq_refl eq_refl _); discriminate.
  - refine (proj2 (proj2 (proj2
      (poeditor_status_check (cfg None) (scripted [ReplyBody failureWithoutMessage])
         "languages/available" [] [] failureWithoutMessage failureWithoutMessageJson
         eq_refl eq_refl))) _ eq_refl "4048" eq_refl); discriminate.
  - exact (proj2 (proj1
      (poeditor_status_check (cfg None) (scripted [ReplyBody (success termsAdded)])
         "languages/available" [] [] (success termsAdded) (successJson termsAdded)
         eq_refl eq_refl)) eq_refl).
Defined.

(** A reply that is a page of HTML. *)
Lemma poeditor_malformed_reply_witness :
  exists msg,
    poeditor (cfg None) (scripted [ReplyBody badGateway]) "terms/list" [("id", "7")] []
    = (Throw (Error msg),
       [adapterRequest (cfg None) "terms/list" [("id", "7")]])
    /\ msg = "POEditor: invalid JSON response: <html>502 Bad Gateway</html>"
    /\ includes msg badGateway = true
    /\ (forall v, fst (poeditor (cfg None) (scripted [ReplyBody badGateway])
                         "terms/list" [("id", "7")] []) <> Ok v).
Proof.
  exact (poeditor_malformed_reply (cfg None) (scripted [ReplyBody badGateway])
           "terms/list" [("id", "7")] [] badGateway eq_refl eq_refl).
Defined.


(** The compound operation when the first call fails, and when the second
    one does. *)
Lemma compound_call_order_witness :
  let args := compoundArgs [bareItem; contextItem] in
  let rq1 := adapterRequest (cfg None) "terms/add" (termsAddForm args (Finite 7 0)) in
  let rq2 :=
    adapterRequest (cfg None) "translations/add" (translationsAddForm args (Finite 7 0)) in
  add_terms_with_translations (cfg None) (scripted [ReplyBody failure]) args []
  = (Throw (Error "POEditor API error 4043: Wrong api_token"), [rq1])
  /\ add_terms_with_translations (cfg None)
       (scripted [ReplyBody (success termsAdded); ReplyBody badGateway]) args []
     = (Throw (Error "POEditor: invalid JSON response: <html>502 Bad Gateway</html>"),
        [rq1; rq2]).
Proof.
  split.
  - exact (proj1 (compound_call_order (cfg None) (scripted [ReplyBody failure])
             (compoundArgs [bareItem; contextItem]) [] (Finite 7 0) eq_refl)
             _ eq_refl).
  - exact (proj1 (proj2 (compound_call_order (cfg None)
             (scripted [ReplyBody (success termsAdded); ReplyBody badGateway])
             (compoundArgs [bareItem; contextItem]) [] (Finite 7 0) eq_refl))
             _ _ eq_refl eq_refl).
Defined.

(** C1 fails on an item without a context: the record sent to terms/add
    has no context key, the record sent to translations/add has the empty
    string. *)
Lemma compound_context_mismatch :
  exists (rq1 rq2 : Request) (r : ToolResult),
    add_terms_with_translations (cfg None)
      (scripted [ReplyBody (success termsAdded); ReplyBody (success translationsAdded)])
      (compoundArgs [bareItem]) []
    = (Ok r, [rq1; rq2])
    /\ dataOf rq1 = Some ("[{" ++ q "term" ++ ":" ++ q "Save" ++ "}]")
    /\ dataOf rq2
       = Some ("[{" ++ q "term" ++ ":" ++ q "Save" ++ "," ++ q "context" ++ ":" ++ q ""
                 ++ "," ++ q "translation" ++ ":{" ++ q "content" ++ ":" ++ q "Speichern"
                 ++ "," ++ q "fuzzy" ++ ":0}}]")
    /\ sentMember "context" (termRecord bareItem) = None
    /\ sentMember "context" (translationPayload bareItem) = Some (JStr "")
    /\ sentMember "context" (termRecord bareItem)
       <> sentMember "context" (translationPayload bareItem).
Proof.
  do 3 eexists. split; [vm_compute; reflexivity|].
  repeat split; try reflexivity. discriminate.
Qed.

(** An item with a context: both requests are sent, and both records
    carry the context. *)
Lemma compound_context_transmitted_witness :
  snd (add_terms_with_translations (cfg None)
         (scripted [ReplyBody (success termsAdded); ReplyBody (success translationsAdded)])
         (compoundArgs [contextItem]) [])
  = [adapterRequest (cfg None) "terms/add"
       [("id", "7");
        ("data", "[{" ++ q "term" ++ ":" ++ q "Open" ++ "," ++ q "context" ++ ":" ++ q "menu"
                   ++ "," ++ q "reference" ++ ":" ++ q "app.tsx" ++ "," ++ q "tags" ++ ":["
                   ++ q "ui" ++ "]}]")];
     adapterRequest (cfg None) "translations/add"
       [("id", "7"); ("language", "de");
        ("data", "[{" ++ q "term" ++ ":" ++ q "Open" ++ "," ++ q "context" ++ ":" ++ q "menu"
                   ++ "," ++ q "translation" ++ ":{" ++ q "content" ++ ":" ++ q "Oeffnen"
                   ++ "," ++ q "fuzzy" ++ ":0}}]")]]
  /\ recordMember "context" (sentCompoundTermRecord contextItem) = Some (JStr "menu")
  /\ recordMember "context" (sentCompoundTranslationRecord contextItem) = Some (JStr "menu").
Proof.
  pose proof (compound_context_transmitted (rt := ModelRuntime) (cfg None)
                (scripted [ReplyBody (success termsAdded);
                           ReplyBody (success translationsAdded)])
                (compoundArgs [contextItem]) [] (Finite 7 0) eq_refl) as H.
  cbv zeta in H. destruct H as [_ [H2 [_ [_ [_ [_ H7]]]]]].
  split; [exact (H2 (successJson termsAdded) eq_refl)|].
  exact (proj1 (H7 contextItem) "menu" eq_refl).
Defined.

(** Counting the terms that hold the text hello. *)
Lemma list_terms_count_only_witness :
  list_terms (cfg None) (scripted [ReplyBody (success remoteTerms)])
    (listArgs (Some "HELLO") (Some true)) []
  = (Ok (textResult (Some ("{" ++ q "total" ++ ":1}"))),
     [adapterRequest (cfg None) "terms/list" [("id", "7"); ("language", "de")]]).
Proof.
  exact (proj1 (proj2 (list_terms_count_only (cfg None)
           (scripted [ReplyBody (success remoteTerms)])
           (listArgs (Some "HELLO") (Some true)) [] eq_refl))
           (Finite 7 0) (successJson remoteTerms)
           [JObj [("term", JStr "Hello world"); ("context", JUndefined);
                  ("translation", JStr "Hallo Welt")];
            JObj [("term", JStr "Goodbye"); ("context", JStr "farewell");
                  ("translation", JUndefined)]]
           [JObj [("term", JStr "Hello world"); ("context", JUndefined);
                  ("translation", JStr "Hallo Welt")]]
           eq_refl eq_refl eq_refl eq_refl).
Defined.

(** A term listed with the empty context and the same term listed with no
    context are selected alike. *)
Lemma empty_context_reduced_as_absent_witness :
  selectTerms (listArgs (Some "hello") None)
    (successJson (JObj [("terms", JArr [JObj [("term", JStr "Hello"); ("context", JStr "")]])]))
  = selectTerms (listArgs (Some "hello") None)
      (successJson (JObj [("terms", JArr [JObj [("term", JStr "Hello")]])])).
Proof.
  exact (proj2 (empty_context_reduced_as_absent [("term", JStr "Hello")])
           (listArgs (Some "hello") None) [] []
           (successJson (JObj [("terms", JArr [JObj [("term", JStr "Hello");
                                                     ("context", JStr "")]])]))
           (successJson (JObj [("terms", JArr [JObj [("term", JStr "Hello")]])]))
           eq_refl eq_refl eq_refl eq_refl).
Defined.

(** The search text in lower and in upper case gives the same answer. *)
Example search_hello_any_case :
  forall s, In s ["hello"; "HELLO"; "Hello"] ->
    fst (list_terms (cfg None) (scripted [ReplyBody (success greetings)])
           (listArgs (Some s) None) [])
    = Ok (textResult (Some ("{" ++ q "terms" ++ ":[{" ++ q "term" ++ ":"
                              ++ q "Hello world" ++ "}]," ++ q "total" ++ ":1}"))).
Proof.
  intros s [<-|[<-|[<-|[]]]]; reflexivity.
Qed.

(** C8 does not hold of the code: the service lists the translation of a
    plural term as an object; over the reply [mixedTerms], whose reduced
    terms are [reducedPlural] and [reducedHallo], the search text hello
    occurs in the second term and not in the first, and the call with that
    search text returns no term set: after its one request it raises a type
    error, at the translation of the first term.  Without a search text the
    same call returns both terms. *)
Theorem list_terms_search_plural_translation :
  reduceTerms (successJson mixedTerms) = Ok [Samples.reducedPlural; Samples.reducedHallo]
  /\ ~ TermMatches "hello" Samples.reducedPlural
  /\ TermMatches "hello" Samples.reducedHallo
  /\ (exists msg : string,
        list_terms (cfg None) (scripted [ReplyBody (success mixedTerms)])
          (listArgs (Some "hello") None) []
        = (Throw (TypeError msg),
           [adapterRequest (cfg None) "terms/list" [("id", "7"); ("language", "de")]]))
  /\ (forall r : ToolResult,
        fst (list_terms (cfg None) (scripted [ReplyBody (success mixedTerms)])
               (listArgs (Some "hello") None) []) <> Ok r)
  /\ fst (list_terms (cfg None) (scripted [ReplyBody (success mixedTerms)])
            (listArgs None None) [])
     = Ok (textResult
             (Some ("{" ++ q "terms" ++ ":[{" ++ q "term" ++ ":" ++ q "file" ++ ","
                      ++ q "translation" ++ ":{" ++ q "one" ++ ":" ++ q "Datei" ++ ","
                      ++ q "other" ++ ":" ++ q "Dateien" ++ "}},{" ++ q "term" ++ ":"
                      ++ q "Hello" ++ "," ++ q "translation" ++ ":" ++ q "Hallo" ++ "}],"
                      ++ q "total" ++ ":2}"))).
Proof.
  split; [reflexivity|]. split; [|split; [|split; [|split]]].
  - intros [[x [Hx Hc]]|[[x [Hx Hc]]|[x [Hx Hc]]]]; try discriminate.
    injection Hx as <-. apply includes_fold_iff in Hc. discriminate.
  - left. exists "Hello". split; [reflexivity|]. now apply includes_fold_iff.
  - eexists. reflexivity.
  - intros r. discriminate.
  - reflexivity.
Qed.

(** C5 fails on a failure reply whose message is an object with a member
    toString: no error is built from the code and the message, the
    conversion of the message to a string raises a type error. *)
Lemma poeditor_status_check_counterexample :
  JSON_parse failureObjectMessage = Some failureObjectMessageJson
  /\ optChain (optChain failureObjectMessageJson "response") "status" = JStr "fail"
  /\ optChain (optChain failureObjectMessageJson "response") "code" = JStr "4043"
  /\ optChain (optChain failureObjectMessageJson "response") "message"
     = JObj [("toString", JNum (Finite 1 0))]
  /\ (exists msg : string,
        poeditor (cfg None) (scripted [ReplyBody failureObjectMessage])
          "languages/available" [] []
        = (Throw (TypeError msg), [adapterRequest (cfg None) "languages/available" []]))
  /\ (forall msg : string,
        fst (poeditor (cfg None) (scripted [ReplyBody failureObjectMessage])
               "languages/available" [] [])
        <> Throw (Error msg)).
Proof.
  split; [reflexivity|]. split; [reflexivity|]. split; [reflexivity|].
  split; [reflexivity|]. split.
  - eexists. reflexivity.
  - intros msg. discriminate.
Qed.

(** The service lists the translation of a plural term as an object, and a
    search that reaches it raises a type error. *)
Example search_reaches_plural_translation :
  exists msg : string,
    fst (list_terms (cfg None) (scripted [ReplyBody (success pluralTerms)])
           (listArgs (Some "datei") None) [])
    = Throw (TypeError msg).
Proof. eexists. reflexivity. Qed.

(** The two remote terms of the projection example, with the field term
    alone. *)
Example project_term_only :
  fst (list_terms (cfg None)
         (scripted [ReplyBody (success
            (JObj [("terms", JArr [JObj [("term", JStr "Hello"); ("context", JStr "")];
                                   JObj [("term", JStr "Bye"); ("context", JStr "farewell")]])]))])
         {| ListTermsInput.project_id := Some 7%positive;
            ListTermsInput.language := None;
            ListTermsInput.limit := None;
            ListTermsInput.search := None;
            ListTermsInput.count_only := None;
            ListTermsInput.fields := Some [FTerm] |} [])
  = Ok (textResult (Some ("{" ++ q "terms" ++ ":[{" ++ q "term" ++ ":" ++ q "Hello" ++ "},{"
                            ++ q "term" ++ ":" ++ q "Bye" ++ "}]," ++ q "total" ++ ":2}"))).
Proof. reflexivity. Qed.

End Runs.

(** ** Beyond the claims: the form body, the identifier, the reply *)

(** X1: when the fields of a form have distinct names, none of them
    api_token and none the decimal writing of an array index, the body is
    the token followed by the fields unchanged. *)
Theorem formBody_prepends_token (cfg : Config) (form : list (string * string)) :
  NoDup (map fst form) ->
  ~ In "api_token" (map fst form) ->
  (forall k, In k (map fst form) -> arrayIndex k = None) ->
  formBody cfg form = ("api_token", API_TOKEN cfg) :: form.
Proof.
  intros Hnd Hnot Hnamed. unfold formBody.
  rewrite (fold_setKey_fresh form [("api_token", API_TOKEN cfg)])
    by (simpl; constructor; assumption).
  apply propertyOrder_named. simpl. intros k [<-|Hk]; [reflexivity | now apply Hnamed].
Qed.

(** X2: a field of the body holds the last value the form gives it, and
    api_token holds the configured token only when the form has no field of
    that name.  The body lists the fields whose name is the decimal writing
    of an array index first, by ascending index, then api_token, then the
    fields of every other name. *)
Theorem formBody_lookup (cfg : Config) (form : list (string * string)) (k : string) :
  lookupKey k (formBody cfg form)
  = match lookupKey k (rev form) with
    | Some v => Some v
    | None => if String.eqb k "api_token" then Some (API_TOKEN cfg) else None
    end
  /\ exists indexed v rest,
       formBody cfg form = (indexed ++ ("api_token", v) :: rest)%list
       /\ Sorted indexAscending indexed
       /\ Forall (fun kv => arrayIndex (fst kv) <> None) indexed
       /\ Forall (fun kv => arrayIndex (fst kv) = None) rest.
Proof.
  split; [apply formBody_field|].
  unfold formBody, propertyOrder.
  destruct (fold_setKey_head form [] "api_token" (API_TOKEN cfg)) as [v [rest E]].
  rewrite E.
  exists (map snd (indexedProperties (("api_token", v) :: rest))), v, (filter isNamed rest).
  split; [reflexivity|]. split; [|split].
  - apply indexed_fields_ascending;
      [apply indexedProperties_sound | apply indexedProperties_sorted].
  - apply Forall_map.
    eapply Forall_impl; [|apply indexedProperties_sound].
    intros x Hx. rewrite Hx. discriminate.
  - apply Forall_forall. intros kv Hin. apply filter_In in Hin.
    destruct Hin as [_ Hn]. unfold isNamed in Hn.
    now destruct (arrayIndex (fst kv)).
Qed.

Section IdentifierFacts.
Context {rt : JSRuntime}.
Variable cfg : Config.

(** X4: an identifier that is returned is never zero or NaN, and it is the
    explicit one or, without an explicit one, the conversion of the default;
    an explicit identifier that is zero or NaN is refused whatever the
    default is. *)
Theorem requireProjectId_returns_truthy (a : option number) (n : number) :
  requireProjectId cfg a = Ok n ->
  truthyNumber n = true
  /\ (a = Some n
      \/ (a = None /\ exists s, PROJECT_ID cfg = Some s /\ s <> "" /\ Number s = n))
  /\ (forall m, truthyNumber m = false ->
        requireProjectId cfg (Some m) = Throw missingProjectId).
Proof.
  intros H. split; [|split].
  - unfold requireProjectId in H.
    destruct a as [m|].
    + destruct (truthyNumber m) eqn:E; [|discriminate]. now injection H as <-.
    + destruct (PROJECT_ID cfg) as [s|]; [|discriminate].
      destruct (String.eqb s ""); simpl in H; [discriminate|].
      destruct (truthyNumber (Number s)) eqn:E; [|discriminate]. now injection H as <-.
  - unfold requireProjectId in H.
    destruct a as [m|].
    + destruct (truthyNumber m); [|discriminate]. left. now injection H as <-.
    + right. split; [reflexivity|].
      destruct (PROJECT_ID cfg) as [s|]; [|discriminate].
      destruct (String.eqb s "") eqn:Es; simpl in H; [discriminate|].
      destruct (truthyNumber (Number s)); [|discriminate].
      exists s. split; [reflexivity|]. split; [now apply String.eqb_neq|].
      now injection H as <-.
  - intros m Hm. unfold requireProjectId. now rewrite Hm.
Qed.

(** X6: a reply that parses but whose response member is no object (so
    every reply that is no object itself) raises the error with an empty
    code and the generic message. *)
Theorem readReply_without_response (text : string) (json : JSValue) :
  JSON_parse text = Some json ->
  (forall ms, optChain json "response" <> JObj ms) ->
  readReply text = Throw (Error "POEditor API error : Unknown POEditor error").
Proof.
  intros Hp Hno. unfold readReply. rewrite Hp.
  assert (H : forall k, optChain (optChain json "response") k = JUndefined).
  { intros k. destruct (optChain json "response") as [| | | | | |ms];
      try reflexivity. exfalso. now apply (Hno ms). }
  rewrite !H. reflexivity.
Qed.

End IdentifierFacts.

(** X23: the configuration is loaded exactly when the token is set and not
    empty; a loaded configuration has that token, a base address that is
    never empty (the one of the environment when that is set and not empty,
    the documented one otherwise) and the default identifier as it is set. *)
Theorem loadConfig_token_and_base (env : string -> option string) :
  (loadConfig env = None
   <-> env "POEDITOR_API_TOKEN" = None \/ env "POEDITOR_API_TOKEN" = Some "")
  /\ (forall c, loadConfig env = Some c ->
        env "POEDITOR_API_TOKEN" = Some (API_TOKEN c)
        /\ API_TOKEN c <> ""
        /\ API_BASE c <> ""
        /\ (forall b, env "POEDITOR_API_BASE" = Some b -> b <> "" -> API_BASE c = b)
        /\ ((env "POEDITOR_API_BASE" = None \/ env "POEDITOR_API_BASE" = Some "") ->
            API_BASE c = "https://api.poeditor.com/v2")
        /\ PROJECT_ID c = env "POEDITOR_PROJECT_ID").
Proof.
  unfold loadConfig. split.
  - destruct (env "POEDITOR_API_TOKEN") as [t|]; [|split; auto].
    destruct (String.eqb t "") eqn:E.
    + apply String.eqb_eq in E. subst t. split; auto.
    + apply String.eqb_neq in E. split; [discriminate|].
      intros [H|H]; [discriminate | injection H as ->; contradiction].
  - intros c. destruct (env "POEDITOR_API_TOKEN") as [t|]; [|discriminate].
    destruct (String.eqb t "") eqn:E; [discriminate|].
    apply String.eqb_neq in E. intros [= <-]. simpl.
    split; [reflexivity|]. split; [exact E|].
    destruct (env "POEDITOR_API_BASE") as [b|].
    + destruct (String.eqb b "") eqn:Eb.
      * apply String.eqb_eq in Eb. subst b.
        repeat split; try discriminate; auto. intros b [= <-] Hb. contradiction.
      * apply String.eqb_neq in Eb.
        repeat split; auto.
        -- intros b' [= <-] _. reflexivity.
        -- intros [H|H]; [discriminate | injection H as ->; contradiction].
    + repeat split; try discriminate; auto.
Qed.

(** ** Beyond the claims: what every tool call sends and returns *)

Section CallFacts.
Context {rt : JSRuntime}.
Variable cfg : Config.
Variable remote : Remote.

Lemma toJSON_defined (v : JSValue) : v <> JUndefined -> exists j, toJSON v = Some j.
Proof.
  destruct v as [| | |[| |]| | |]; intros H; try (eexists; reflexivity).
  now contradiction H.
Qed.

Lemma JSON_stringify_defined (space : nat) (v : JSValue) :
  v <> JUndefined -> exists s, JSON_stringify space v = Some s.
Proof.
  intros H. destruct (toJSON_defined v H) as [j Hj].
  unfold JSON_stringify. rewrite Hj. eexists. reflexivity.
Qed.

Lemma nullish_defined (a : JSValue) (ms : list (string * JSValue)) :
  nullish a (JObj ms) <> JUndefined.
Proof. destruct a; discriminate. Qed.

(** A plain call whose identifier resolves: one request, then the result of
    the reply, formatted. *)
Lemma plain_call_run (c : ToolCall) (id : number) (w : World) :
  isPlainCall c = true ->
  Resolves cfg c id ->
  callTool cfg remote c w
  = (bindO (adapterOutcome (remote w (callRequest cfg c id))) (fun res =>
       Ok (textResult (JSON_stringify 2 (nullish (getProp res "result") (JObj []))))),
     (w ++ [callRequest cfg c id])%list).
Proof.
  intros Hp Hr.
  destruct c; try discriminate; unfold Resolves in Hr; simpl in Hr;
    unfold callTool, callRequest; cbv beta iota;
    unfold add_translations, update_translations, list_languages,
      list_available_languages, add_language;
    unfold bind, lift, ret; rewrite ?Hr; rewrite poeditor_run;
    match goal with
    | |- context [adapterOutcome ?r] => destruct (adapterOutcome r) as [res|e] eqn:E
    end; try reflexivity;
    rewrite (member_ok _ _ (adapterOutcome_ok _ _ E)); reflexivity.
Qed.

(** Every call but the compound one sends one request once its identifier
    resolves. *)
Lemma single_request_world (c : ToolCall) (id : number) (w : World) :
  (forall args, c <> CallAddTermsWithTranslations args) ->
  Resolves cfg c id ->
  snd (callTool cfg remote c w) = (w ++ [callRequest cfg c id])%list.
Proof.
  intros Hc Hr. destruct (isPlainCall c) eqn:Hp.
  - now rewrite (plain_call_run c id w Hp Hr).
  - destruct c; try discriminate.
    + simpl. unfold Resolves in Hr. simpl in Hr.
      now rewrite (list_terms_run cfg remote args w id Hr).
    + exfalso. now apply (Hc args).
Qed.

Lemma adapterRequest_built (endpoint : string) (form : list (string * string)) :
  In endpoint endpoints ->
  lookupKey "api_token" (rev form) = None ->
  AdapterBuilt cfg (adapterRequest cfg endpoint form).
Proof.
  intros Hin Hform. unfold AdapterBuilt. simpl.
  split; [reflexivity|]. split; [reflexivity|]. split.
  - rewrite (formBody_field cfg form "api_token"), Hform. reflexivity.
  - now exists endpoint.
Qed.

Lemma callRequest_built (c : ToolCall) (id : number) :
  AdapterBuilt cfg (callRequest cfg c id).
Proof.
  destruct c; simpl; apply adapterRequest_built; simpl; auto 10.
  unfold listTermsForm. destruct (ListTermsInput.language args) as [l|]; [|reflexivity].
  destruct (String.eqb l ""); reflexivity.
Qed.

(** The identifier of a call either resolves or the call stops at once. *)
Lemma resolve_or_stop (c : ToolCall) (w : World) :
  (exists id, Resolves cfg c id)
  \/ (exists e, callTool cfg remote c w = (Throw e, w)).
Proof.
  destruct (callProjectId c) as [p|] eqn:Hc.
  - destruct (requireProjectId cfg (option_map number_of_positive p)) as [id|e] eqn:Hr.
    + left. exists id. unfold Resolves. now rewrite Hc.
    + right. exists e. now apply (callTool_unresolved cfg remote c p).
  - left. exists NaN. unfold Resolves. now rewrite Hc.
Qed.

(** X3: a tool call never removes or changes a request already sent; it
    adds at most two (at most one unless it is the compound tool), and each
    is a form-encoded POST to one of the endpoints under the base address
    that carries the configured token. *)
Theorem callTool_requests (c : ToolCall) (w : World) :
  exists new : list Request,
    snd (callTool cfg remote c w) = (w ++ new)%list
    /\ List.length new <= 2
    /\ ((forall args, c <> CallAddTermsWithTranslations args) -> List.length new <= 1)
    /\ Forall (AdapterBuilt cfg) new.
Proof.
  destruct (resolve_or_stop c w) as [[id Hr]|[e He]].
  - assert (Hsingle : (forall args, c <> CallAddTermsWithTranslations args) ->
                      exists new : list Request,
                        snd (callTool cfg remote c w) = (w ++ new)%list
                        /\ List.length new <= 2
                        /\ ((forall args, c <> CallAddTermsWithTranslations args) ->
                            List.length new <= 1)
                        /\ Forall (AdapterBuilt cfg) new).
    { intros Hc. exists [callRequest cfg c id].
      split; [now apply single_request_world|]. simpl.
      split; [lia|]. split; [lia|].
      apply Forall_cons; [apply callRequest_built | apply Forall_nil]. }
    destruct c; try (apply Hsingle; discriminate).
    unfold Resolves in Hr. simpl in Hr. simpl.
    rewrite (add_terms_with_translations_run cfg remote args w id Hr).
    pose proof (callRequest_built (CallAddTermsWithTranslations args) id) as H1.
    simpl in H1.
    assert (H2 : AdapterBuilt cfg
                   (adapterRequest cfg "translations/add" (translationsAddForm args id))).
    { apply adapterRequest_built; simpl; auto 10. }
    destruct (adapterOutcome _) as [termRes|e1].
    + exists [adapterRequest cfg "terms/add" (termsAddForm args id);
              adapterRequest cfg "translations/add" (translationsAddForm args id)].
      split; [destruct (adapterOutcome _); reflexivity|]. simpl.
      split; [lia|]. split; [intros Hc; exfalso; now apply (Hc args)|].
      apply Forall_cons; [exact H1|]. apply Forall_cons; [exact H2|]. apply Forall_nil.
    + exists [adapterRequest cfg "terms/add" (termsAddForm args id)].
      split; [reflexivity|]. simpl. split; [lia|]. split; [lia|].
      apply Forall_cons; [exact H1|]. apply Forall_nil.
  - exists []. rewrite He, app_nil_r. simpl. repeat split; try lia. constructor.
Qed.

(** X5: when the adapter raises on the first request of a call, whether the
    network failed, the reply did not parse or its status was no success,
    the call fails with that very error, after that one request. *)
Theorem callTool_error_propagates (c : ToolCall) (id : number) (w : World) (e : Exn) :
  Resolves cfg c id ->
  adapterOutcome (remote w (callRequest cfg c id)) = Throw e ->
  callTool cfg remote c w = (Throw e, (w ++ [callRequest cfg c id])%list).
Proof.
  intros Hr He. destruct (isPlainCall c) eqn:Hp.
  - rewrite (plain_call_run c id w Hp Hr), He. reflexivity.
  - destruct c; try discriminate; unfold Resolves in Hr; simpl in Hr; simpl in *.
    + rewrite (list_terms_run cfg remote args w id Hr), He. reflexivity.
    + rewrite (add_terms_with_translations_run cfg remote args w id Hr), He. reflexivity.
Qed.

(** X7: a tool call that returns, returns one content item of type text
    whose text is a string, never undefined. *)
Theorem callTool_text_defined (c : ToolCall) (w : World) (r : ToolResult) :
  fst (callTool cfg remote c w) = Ok r ->
  exists s : string, r = {| content := [ {| type := "text"; text := Some s |} ] |}.
Proof.
  intros H.
  assert (Hdef : forall space v, v <> JUndefined ->
                 forall r', Ok (textResult (JSON_stringify space v)) = Ok r' ->
                 exists s, r' = {| content := [ {| type := "text"; text := Some s |} ] |}).
  { intros space v Hv r' [= <-]. destruct (JSON_stringify_defined space v Hv) as [s Hs].
    exists s. now rewrite Hs. }
  destruct (resolve_or_stop c w) as [[id Hr]|[e He]]; [|rewrite He in H; discriminate].
  destruct (isPlainCall c) eqn:Hp.
  - rewrite (plain_call_run c id w Hp Hr) in H. simpl in H.
    destruct (adapterOutcome _) as [res|e]; simpl in H; [|discriminate].
    apply (Hdef _ _ (nullish_defined _ _) r H).
  - destruct c; try discriminate; unfold Resolves in Hr; simpl in Hr; simpl in H.
    + destruct (list_terms_returns cfg remote args w r H)
        as [id' [res [terms [kept [_ [_ [_ [_ ->]]]]]]]].
      unfold listTermsOutput.
      destruct (ListTermsInput.count_only args) as [[|]|];
        eapply Hdef; try reflexivity; discriminate.
    + rewrite (add_terms_with_translations_run cfg remote args w id Hr) in H.
      destruct (adapterOutcome _) as [termRes|e]; simpl in H; [|discriminate].
      destruct (adapterOutcome _) as [translationRes|e]; simpl in H; [|discriminate].
      eapply Hdef; [|exact H]. discriminate.
Qed.

(** X8: a plain call (add_translations, update_translations, list_languages,
    list_available_languages, add_language) whose reply the adapter accepts
    returns the result member of the reply, indented by two spaces, and the
    empty object when the reply has no result or a null one. *)
Theorem plain_call_result (c : ToolCall) (id : number) (w : World) (res : JSValue) :
  isPlainCall c = true ->
  Resolves cfg c id ->
  adapterOutcome (remote w (callRequest cfg c id)) = Ok res ->
  callTool cfg remote c w
  = (Ok (textResult (JSON_stringify 2 (nullish (getProp res "result") (JObj [])))),
     (w ++ [callRequest cfg c id])%list)
  /\ (isNullish (getProp res "result") = true ->
      callTool cfg remote c w
      = (Ok (textResult (Some "{}")), (w ++ [callRequest cfg c id])%list)).
Proof.
  intros Hp Hr Hres.
  assert (H : callTool cfg remote c w
              = (Ok (textResult (JSON_stringify 2 (nullish (getProp res "result") (JObj [])))),
                 (w ++ [callRequest cfg c id])%list)).
  { rewrite (plain_call_run c id w Hp Hr), Hres. reflexivity. }
  split; [exact H|]. intros Hn. rewrite H. unfold nullish. rewrite Hn. reflexivity.
Qed.

End CallFacts.

Section RequestFacts.
Context {rt : JSRuntime}.
Variable cfg : Config.

(** X9: add_translations and update_translations send the same method,
    content type and body, whatever the service answers; once the
    identifier resolves each sends one request, and the addresses are
    translations/add and translations/update. *)
Theorem add_and_update_send_alike
  (remote1 remote2 : Remote) (args : TranslationsInput.t) (w : World) :
  map (fun rq => (method rq, content_type rq, body rq))
      (snd (add_translations cfg remote1 args w))
  = map (fun rq => (method rq, content_type rq, body rq))
        (snd (update_translations cfg remote2 args w))
  /\ (forall id,
         requireProjectId cfg
           (option_map number_of_positive (TranslationsInput.project_id args)) = Ok id ->
         exists rqA rqU,
           snd (add_translations cfg remote1 args w) = (w ++ [rqA])%list
           /\ snd (update_translations cfg remote2 args w) = (w ++ [rqU])%list
           /\ url rqA = API_BASE cfg ++ "/translations/add"
           /\ url rqU = API_BASE cfg ++ "/translations/update"
           /\ body rqA = body rqU).
Proof.
  assert (Hres : forall id,
             requireProjectId cfg
               (option_map number_of_positive (TranslationsInput.project_id args)) = Ok id ->
             snd (add_translations cfg remote1 args w)
             = (w ++ [callRequest cfg (CallAddTranslations args) id])%list
             /\ snd (update_translations cfg remote2 args w)
                = (w ++ [callRequest cfg (CallUpdateTranslations args) id])%list).
  { intros id Hid. split.
    - apply (single_request_world cfg remote1 (CallAddTranslations args) id w);
        [discriminate | exact Hid].
    - apply (single_request_world cfg remote2 (CallUpdateTranslations args) id w);
        [discriminate | exact Hid]. }
  split.
  - destruct (requireProjectId cfg
                (option_map number_of_positive (TranslationsInput.project_id args)))
      as [id|e] eqn:Hid.
    + destruct (Hres id eq_refl) as [-> ->]. rewrite !map_app. reflexivity.
    + rewrite (callTool_unresolved cfg remote1 (CallAddTranslations args) _ e w eq_refl Hid
               : add_translations cfg remote1 args w = _).
      rewrite (callTool_unresolved cfg remote2 (CallUpdateTranslations args) _ e w eq_refl Hid
               : update_translations cfg remote2 args w = _).
      reflexivity.
  - intros id Hid. destruct (Hres id Hid) as [HA HU].
    do 2 eexists. split; [exact HA|]. split; [exact HU|]. repeat split.
Qed.

(** X10: the search text, the limit, the fields and the count-only flag of
    list_terms stay with the server: two calls with the same identifier and
    language send the same request, whatever else they ask for and whatever
    the service answers. *)
Theorem list_terms_request_ignores_options
  (remote1 remote2 : Remote) (args1 args2 : ListTermsInput.t) (w : World) :
  ListTermsInput.project_id args1 = ListTermsInput.project_id args2 ->
  ListTermsInput.language args1 = ListTermsInput.language args2 ->
  snd (list_terms cfg remote1 args1 w) = snd (list_terms cfg remote2 args2 w).
Proof.
  intros Hp Hl.
  destruct (requireProjectId cfg
              (option_map number_of_positive (ListTermsInput.project_id args1)))
    as [id|e] eqn:Hid.
  - rewrite (list_terms_run cfg remote1 args1 w id Hid).
    rewrite Hp in Hid. rewrite (list_terms_run cfg remote2 args2 w id Hid).
    simpl. unfold listTermsForm. now rewrite Hl.
  - rewrite (callTool_unresolved cfg remote1 (CallListTerms args1) _ e w eq_refl Hid
             : list_terms cfg remote1 args1 w = _).
    rewrite Hp in Hid.
    rewrite (callTool_unresolved cfg remote2 (CallListTerms args2) _ e w eq_refl Hid
             : list_terms cfg remote2 args2 w = _).
    reflexivity.
Qed.

End RequestFacts.

(** ** Beyond the claims: the stages of list_terms *)

Section StageFacts.
Context {rt : JSRuntime}.

Lemma applyLimit_firstn (n : positive) (terms : list JSValue) :
  applyLimit (Some n) terms = firstn (Pos.to_nat n) terms.
Proof.
  unfold applyLimit. destruct (Pos.to_nat n <? List.length terms)%nat eqn:E;
    [reflexivity|].
  apply Nat.ltb_ge in E. symmetry. now apply firstn_all2.
Qed.

(** X11: unless count_only is asked for, list_terms reports as total the
    number of selected terms before the limit and returns the first limit of
    them, all of them when there are no more than the limit. *)
Theorem listTermsOutput_limit (args : ListTermsInput.t) (terms : list JSValue) :
  ListTermsInput.count_only args <> Some true ->
  let returned :=
    match ListTermsInput.limit args with
    | Some n => firstn (Pos.to_nat n) terms
    | None => terms
    end in
  listTermsOutput args terms
  = textResult (JSON_stringify 0
      (JObj [("terms", JArr returned);
             ("total", JNum (number_of_nat (List.length terms)))]))
  /\ List.length returned
     = match ListTermsInput.limit args with
       | Some n => Nat.min (Pos.to_nat n) (List.length terms)
       | None => List.length terms
       end
  /\ List.length returned <= List.length terms.
Proof.
  intros Hc returned.
  assert (Hret : applyLimit (ListTermsInput.limit args) terms = returned).
  { unfold returned. destruct (ListTermsInput.limit args) as [n|];
      [apply applyLimit_firstn | reflexivity]. }
  assert (Hlen : List.length returned
                 = match ListTermsInput.limit args with
                   | Some n => Nat.min (Pos.to_nat n) (List.length terms)
                   | None => List.length terms
                   end).
  { unfold returned. destruct (ListTermsInput.limit args) as [n|];
      [apply length_firstn | reflexivity]. }
  split; [|split; [exact Hlen|]].
  - unfold listTermsOutput. rewrite Hret.
    destruct (ListTermsInput.count_only args) as [[|]|]; [congruence| |]; reflexivity.
  - rewrite Hlen. destruct (ListTermsInput.limit args); lia.
Qed.

Lemma hasField_In (f : Field) (l : list Field) : hasField f l = true <-> In f l.
Proof.
  unfold hasField. rewrite existsb_exists. split.
  - intros [g [Hg H]]. destruct f, g; try discriminate; exact Hg.
  - intros H. exists f. split; [exact H|]. destruct f; reflexivity.
Qed.

(** X12: an empty list of fields projects nothing away, and a projection
    depends on which fields are listed, not on their order or on
    repetitions. *)
Theorem projectFields_by_set :
  (forall terms, applyFields (Some []) terms = terms /\ applyFields None terms = terms)
  /\ (forall (fs1 fs2 : list Field) (t : JSValue),
         (forall f, In f fs1 <-> In f fs2) ->
         projectFields fs1 t = projectFields fs2 t).
Proof.
  split; [intros terms; split; reflexivity|].
  intros fs1 fs2 t H.
  assert (Hb : forall f, hasField f fs1 = hasField f fs2).
  { intros f. destruct (hasField f fs1) eqn:E1, (hasField f fs2) eqn:E2; trivial.
    - apply hasField_In, H, hasField_In in E1. congruence.
    - apply hasField_In, H, hasField_In in E2. congruence. }
  unfold projectFields. now rewrite !Hb.
Qed.

(** X13: projecting twice by the same fields is projecting once, and
    projecting a reduced term by all three fields gives it back. *)
Theorem projectFields_idempotent :
  (forall (fs : list Field) (t : JSValue),
      projectFields fs (projectFields fs t) = projectFields fs t)
  /\ (forall (t r : JSValue),
         reduceTerm t = Ok r ->
         projectFields [FTerm; FContext; FTranslation] r = r).
Proof.
  split.
  - intros fs t. unfold projectFields.
    destruct (hasField FTerm fs), (hasField FContext fs), (hasField FTranslation fs);
      reflexivity.
  - intros t r H. unfold reduceTerm in H.
    destruct (member t "term") as [tv|]; simpl in H; [|discriminate].
    now injection H as <-.
Qed.

Lemma mapO_Forall2 {A B : Type} (f : A -> Outcome B) (l : list A) (ys : list B) :
  mapO f l = Ok ys -> Forall2 (fun x y => f x = Ok y) l ys.
Proof.
  revert ys. induction l as [|x l IH]; simpl; intros ys H.
  - injection H as <-. constructor.
  - destruct (f x) as [y|] eqn:E; simpl in H; [|discriminate].
    destruct (mapO f l) as [ys'|]; simpl in H; [|discriminate].
    injection H as <-. constructor; [exact E | now apply IH].
Qed.

Lemma mapO_ok_iff {A B : Type} (f : A -> Outcome B) (l : list A) :
  (exists ys, mapO f l = Ok ys) <-> Forall (fun x => exists y, f x = Ok y) l.
Proof.
  induction l as [|x l IH]; simpl.
  - split; [constructor | intros _; now exists []].
  - split.
    + intros [ys H]. destruct (f x) as [y|] eqn:E; simpl in H; [|discriminate].
      destruct (mapO f l) as [ys'|]; simpl in H; [|discriminate].
      constructor; [now exists y | apply IH; now exists ys'].
    + intros H. inversion H as [|x' l' [y Hy] Hl]; subst.
      apply IH in Hl. destruct Hl as [ys Hys]. exists (y :: ys).
      now rewrite Hy, Hys.
Qed.

Lemma mapO_throw {A B : Type} (f : A -> Outcome B) (l : list A) (e : Exn) :
  mapO f l = Throw e -> exists x, In x l /\ f x = Throw e.
Proof.
  induction l as [|x l IH]; simpl; [discriminate|].
  destruct (f x) as [y|e'] eqn:E; simpl.
  - destruct (mapO f l) as [ys|e'']; simpl; [discriminate|].
    intros [= <-]. destruct (IH eq_refl) as [x' [Hin Hx]]. exists x'. auto.
  - intros [= <-]. exists x. auto.
Qed.

Lemma reduceTerm_shape (t r : JSValue) : reduceTerm t = Ok r -> ReducedShape r.
Proof.
  unfold reduceTerm. destruct (member t "term") as [tv|]; simpl; [|discriminate].
  intros [= <-]. unfold ReducedShape. do 3 eexists. split; [reflexivity|].
  unfold orElse. split.
  - destruct (truthy (getProp t "context")) eqn:E; auto.
  - destruct (truthy (optChain (getProp t "translation") "content")) eqn:E; auto.
Qed.

Lemma reduceTerm_ok_iff (t : JSValue) :
  (exists r, reduceTerm t = Ok r) <-> isNullish t = false.
Proof.
  unfold reduceTerm, member. destruct (isNullish t); simpl; split; intros H;
    try discriminate; try reflexivity.
  - now destruct H.
  - eexists. reflexivity.
Qed.

Lemma reduceTerm_throws (t : JSValue) (e : Exn) :
  reduceTerm t = Throw e -> exists msg, e = TypeError msg.
Proof.
  unfold reduceTerm, member. destruct (isNullish t); simpl; [|discriminate].
  intros [= <-]. eexists. reflexivity.
Qed.

(** X15: when the reply lists terms, the reduction keeps their number and
    order, and every reduced term has the members term, context and
    translation, the last two undefined or truthy (a context or a
    translation that is empty, null, zero or false is dropped). *)
Theorem reduceTerms_shape (res : JSValue) (l ts : list JSValue) :
  isNullish res = false ->
  optChain (getProp res "result") "terms" = JArr l ->
  reduceTerms res = Ok ts ->
  List.length ts = List.length l
  /\ Forall2 (fun t r => reduceTerm t = Ok r) l ts
  /\ Forall ReducedShape ts.
Proof.
  intros Hn Ht H. unfold reduceTerms in H. rewrite (member_ok _ _ Hn) in H.
  simpl in H. rewrite Ht in H. apply mapO_Forall2 in H.
  split; [symmetry; eapply Forall2_length; exact H|]. split; [exact H|].
  clear Ht. induction H as [|t r l' ts' Hr _ IH]; [apply Forall_nil|].
  apply Forall_cons; [now apply (reduceTerm_shape t) | exact IH].
Qed.

(** X16: the reduction succeeds exactly when the terms of the reply are
    absent or null, or are an array with no null element; when it fails it
    raises a type error. *)
Theorem reduceTerms_succeeds_iff (res : JSValue) :
  isNullish res = false ->
  ((exists ts, reduceTerms res = Ok ts)
   <-> (isNullish (optChain (getProp res "result") "terms") = true
        \/ exists l, optChain (getProp res "result") "terms" = JArr l
                     /\ Forall (fun t => isNullish t = false) l))
  /\ (forall e, reduceTerms res = Throw e -> exists msg, e = TypeError msg).
Proof.
  intros Hn. unfold reduceTerms. rewrite (member_ok _ _ Hn). simpl.
  destruct (optChain (getProp res "result") "terms") as [| | | | |l|ms] eqn:Ht; simpl.
  1,2: split; [split; [auto | intros _; now exists []] | discriminate].
  1,2,3,5: split;
    [ split; [intros [ts H]; discriminate
             | intros [H|[l [H _]]]; discriminate]
    | intros e [= <-]; eexists; reflexivity ].
  split.
  - rewrite mapO_ok_iff. split.
    + intros H. right. exists l. split; [reflexivity|].
      eapply Forall_impl; [|exact H]. intros t. apply reduceTerm_ok_iff.
    + intros [H|[l' [[= <-] H]]]; [discriminate|].
      eapply Forall_impl; [|exact H]. intros t. apply reduceTerm_ok_iff.
  - intros e H. apply mapO_throw in H. destruct H as [t [_ H]].
    now apply (reduceTerm_throws t).
Qed.

Lemma toLowerCase_empty (s : string) : String.eqb (toLowerCase s) "" = String.eqb s "".
Proof.
  destruct (String.eqb s "") eqn:E.
  - apply String.eqb_eq in E. subst s. rewrite toLowerCase_ascii by reflexivity.
    reflexivity.
  - apply String.eqb_neq. intros H. apply toLowerCase_nonempty in H.
    apply String.eqb_neq in E. contradiction.
Qed.

(** X17: the search does not look at the case of the search text: two
    texts that differ in case alone select the same terms. *)
Theorem applySearch_ignores_case_of_text (s s' : string) (terms : list JSValue) :
  toLowerCase s = toLowerCase s' ->
  applySearch (Some s) terms = applySearch (Some s') terms.
Proof.
  intros H. unfold applySearch.
  rewrite <- (toLowerCase_empty s), <- (toLowerCase_empty s'), H. reflexivity.
Qed.

Lemma filter_shorter {A : Type} (p : A -> bool) (l : list A) :
  List.length (filter p l) <= List.length l.
Proof.
  induction l as [|x l IH]; simpl; [lia|]. destruct (p x); simpl; lia.
Qed.

(** X18: a search that returns keeps a part of the terms, in their order:
    no term is added, so the total never exceeds the number of terms of the
    reply; with no search text, or an empty one, every term is kept. *)
Theorem applySearch_keeps_sublist
  (search : option string) (terms kept : list JSValue) :
  applySearch search terms = Ok kept ->
  (exists p : JSValue -> bool, kept = filter p terms)
  /\ List.length kept <= List.length terms
  /\ incl kept terms
  /\ ((search = None \/ search = Some "") -> kept = terms).
Proof.
  intros H.
  assert (Hp : exists p : JSValue -> bool, kept = filter p terms).
  { destruct search as [s|].
    - destruct (String.eqb s "") eqn:E.
      + apply String.eqb_eq in E. subst s. simpl in H. injection H as <-.
        exists (fun _ => true). symmetry. now apply filter_all.
      + apply String.eqb_neq in E. exists (searchKeeps s).
        now apply (applySearch_sound s terms kept E).
    - simpl in H. injection H as <-.
      exists (fun _ => true). symmetry. now apply filter_all. }
  split; [exact Hp|]. destruct Hp as [p ->].
  split; [apply filter_shorter|]. split; [apply incl_filter|].
  intros [->| ->]; simpl in H; now injection H.
Qed.

(** X19: the three tests of the search are tried in order and stop at the
    first that holds: a term whose text holds the search text is kept
    whatever its context and translation are, and so is one matched by its
    context whatever its translation is. *)
Theorem matchesSearch_stops_at_first_match (s : string) (t : JSValue) :
  (searchTest s (getProp t "term") = true ->
   matchesSearch (toLowerCase s) t = Ok true)
  /\ ((isNullish (getProp t "term") = true \/ isText (getProp t "term")) ->
      searchTest s (getProp t "context") = true ->
      matchesSearch (toLowerCase s) t = Ok true).
Proof.
  unfold matchesSearch. split.
  - intros H. destruct (getProp t "term"); try discriminate.
    simpl in *. now rewrite H.
  - intros Hterm Hctx.
    assert (H1 : exists r, lowerIncludes (getProp t "term") (toLowerCase s) = Ok r).
    { destruct Hterm as [Hn|[x Hx]].
      - destruct (getProp t "term"); try discriminate; eexists; reflexivity.
      - rewrite Hx. eexists. reflexivity. }
    destruct H1 as [r1 H1]. rewrite H1. simpl.
    destruct (truthy r1); [reflexivity|].
    destruct (getProp t "context"); try discriminate.
    simpl in *. now rewrite Hctx.
Qed.

End StageFacts.

(** ** Beyond the claims: empty replies, the compound tool, add_terms *)

Lemma toJSON_undefined_iff (v : JSValue) : toJSON v = None <-> v = JUndefined.
Proof.
  split; [|now intros ->].
  destruct v as [| | |[| |]| | |]; simpl; try discriminate. reflexivity.
Qed.

Lemma toJSON_strings (l : list string) :
  toJSON (JArr (map JStr l)) = Some (JArr (map JStr l)).
Proof. simpl. now rewrite map_map. Qed.

Section MoreToolFacts.
Context {rt : JSRuntime}.
Variable cfg : Config.
Variable remote : Remote.

(** X14: when the reply of terms/list has no result, or a result without
    terms, list_terms returns an empty list and the total zero (the total
    alone with count_only), whatever search, fields or limit were asked
    for. *)
Theorem list_terms_without_terms
  (args : ListTermsInput.t) (w : World) (id : number) (res : JSValue) :
  requireProjectId cfg (option_map number_of_positive (ListTermsInput.project_id args))
  = Ok id ->
  let rq := adapterRequest cfg "terms/list" (listTermsForm args id) in
  adapterOutcome (remote w rq) = Ok res ->
  isNullish (optChain (getProp res "result") "terms") = true ->
  list_terms cfg remote args w
  = (Ok (textResult (Some
       match ListTermsInput.count_only args with
       | Some true => "{" ++ quoteJSON "total" ++ ":0}"
       | _ => "{" ++ quoteJSON "terms" ++ ":[]," ++ quoteJSON "total" ++ ":0}"
       end)),
     (w ++ [rq])%list).
Proof.
  intros Hid rq Hres Hterms.
  rewrite (list_terms_run cfg remote args w id Hid). fold rq. rewrite Hres. simpl.
  assert (Hsel : selectTerms args res = Ok []).
  { unfold selectTerms, reduceTerms.
    rewrite (member_ok _ _ (adapterOutcome_ok _ _ Hres)). simpl.
    destruct (optChain (getProp res "result") "terms"); try discriminate; simpl;
      (destruct (ListTermsInput.search args) as [s|]; simpl;
       [destruct (String.eqb s ""); simpl|]);
      destruct (ListTermsInput.fields args) as [[|f fs]|]; reflexivity. }
  rewrite Hsel. simpl. unfold listTermsOutput.
  destruct (ListTermsInput.count_only args) as [[|]|]; try reflexivity;
    destruct (ListTermsInput.limit args); reflexivity.
Qed.

Lemma searchTest_text (s : string) (v : JSValue) :
  searchTest s v = true
  <-> exists x, v = JStr x /\ includes (toLowerCase x) (toLowerCase s) = true.
Proof.
  destruct v as [| | | |x| |]; simpl;
    try (split; [discriminate | intros [y [Hy _]]; discriminate]).
  split.
  - intros H. now exists x.
  - now intros [y [[= <-] H]].
Qed.

Lemma searchKeeps_fields (s : string) (t : JSValue) :
  searchKeeps s t = true
  <-> exists k x,
        In k ["term"; "context"; "translation"]
        /\ getProp t k = JStr x
        /\ includes (toLowerCase x) (toLowerCase s) = true.
Proof.
  unfold searchKeeps. rewrite !orb_true_iff, !searchTest_text. split.
  - intros [[[x [H1 H2]]|[x [H1 H2]]]|[x [H1 H2]]].
    + exists "term", x. split; [now left | now split].
    + exists "context", x. split; [right; now left | now split].
    + exists "translation", x. split; [right; right; now left | now split].
  - intros [k [x [Hk [H1 H2]]]].
    destruct Hk as [<-|[<-|[<-|[]]]].
    + left. left. now exists x.
    + left. right. now exists x.
    + right. now exists x.
Qed.

(** X25: when every reduced term of the reply has a text as its term and a
    text or nothing as its context and as its translation, a list_terms call
    with a search text returns after its one request.  What it shapes into
    its output are, in the order of the reply, exactly the reduced terms one
    of whose three fields, lower-cased, holds the lower-cased search text;
    when the search text and the fields are ASCII text these are the terms
    in one of whose fields the search text occurs with the case of the
    letters ignored. *)
Theorem list_terms_search_text
  (args : ListTermsInput.t) (s : string) (w : World) (id : number)
  (res : JSValue) (terms : list JSValue) :
  ListTermsInput.search args = Some s ->
  requireProjectId cfg (option_map number_of_positive (ListTermsInput.project_id args))
  = Ok id ->
  let rq := adapterRequest cfg "terms/list" (listTermsForm args id) in
  adapterOutcome (remote w rq) = Ok res ->
  reduceTerms res = Ok terms ->
  Forall TextTerm terms ->
  exists kept : list JSValue,
    list_terms cfg remote args w
    = (Ok (listTermsOutput args (applyFields (ListTermsInput.fields args) kept)),
       (w ++ [rq])%list)
    /\ kept = filter (searchKeeps s) terms
    /\ (forall t,
          In t kept
          <-> In t terms
              /\ exists k x,
                   In k ["term"; "context"; "translation"]
                   /\ getProp t k = JStr x
                   /\ includes (toLowerCase x) (toLowerCase s) = true)
    /\ (isASCII s = true ->
        Forall (fun t => forall k x, getProp t k = JStr x -> isASCII x = true) terms ->
        forall t, In t kept <-> In t terms /\ TermMatches s t).
Proof.
  intros Hs Hid rq Hres Hred Hall.
  exists (filter (searchKeeps s) terms). split; [|split; [reflexivity|split]].
  - rewrite (list_terms_run cfg remote args w id Hid). fold rq. rewrite Hres. simpl.
    unfold selectTerms. rewrite Hred. simpl.
    rewrite Hs, (applySearch_total s terms Hall). reflexivity.
  - intros t. rewrite filter_In, searchKeeps_fields. reflexivity.
  - intros Has Hat t. rewrite filter_In. rewrite Forall_forall in Hat. split.
    + intros [Hin Hk]. split; [exact Hin|]. now apply searchKeeps_ascii; [|apply Hat|].
    + intros [Hin Hm]. split; [exact Hin|]. now apply searchKeeps_ascii; [|apply Hat|].
Qed.


(** X24: when both calls of the compound tool succeed, the output always
    has the member translations_added, and has the member terms_added
    unless the reply of terms/add has no result at all. *)
Theorem compound_output_members
  (args : AddTermsWithTranslationsInput.t) (w : World) (id : number)
  (termRes translationRes : JSValue) :
  requireProjectId cfg
    (option_map number_of_positive (AddTermsWithTranslationsInput.project_id args)) = Ok id ->
  let rq1 := adapterRequest cfg "terms/add" (termsAddForm args id) in
  let rq2 := adapterRequest cfg "translations/add" (translationsAddForm args id) in
  adapterOutcome (remote w rq1) = Ok termRes ->
  adapterOutcome (remote (w ++ [rq1])%list rq2) = Ok translationRes ->
  exists out : JSValue,
    add_terms_with_translations cfg remote args w
    = (Ok (textResult (JSON_stringify 2 out)), (w ++ [rq1; rq2])%list)
    /\ (sentMember "terms_added" out = None <-> getProp termRes "result" = JUndefined)
    /\ sentMember "translations_added" out <> None.
Proof.
  intros Hid rq1 rq2 H1 H2.
  pose proof (add_terms_with_translations_run cfg remote args w id Hid) as Hrun.
  cbv zeta in Hrun. fold rq1 rq2 in Hrun. rewrite H1, H2 in Hrun.
  eexists. split; [exact Hrun|].
  set (a := nullish (optChain (getProp termRes "result") "terms") (getProp termRes "result")).
  set (b := nullish (getProp translationRes "result") (JObj [])).
  assert (Hb : exists j, toJSON b = Some j).
  { apply toJSON_defined. apply nullish_defined. }
  destruct Hb as [j Hj].
  assert (Ha : a = JUndefined <-> getProp termRes "result" = JUndefined).
  { unfold a, nullish, optChain.
    destruct (getProp termRes "result") as [| | | | | |ms] eqn:E; simpl;
      try (split; [discriminate|discriminate]); try tauto.
    unfold getProp. destruct (lookupKey "terms" ms) as [[| | | | | |]|];
      simpl; split; discriminate. }
  unfold sentMember. simpl. rewrite Hj.
  destruct (toJSON a) as [ja|] eqn:Eja; simpl.
  - split; [|discriminate]. split; [discriminate|].
    intros Hu. apply Ha in Hu. apply toJSON_undefined_iff in Hu. congruence.
  - split; [|discriminate]. split; [|reflexivity].
    intros _. apply Ha. now apply toJSON_undefined_iff.
Qed.

Lemma toJSON_termValue (i : TermsInput.item) :
  toJSON (termValue i) = Some (sentTermRecord i).
Proof.
  destruct i as [t [c|] [r|] [p|] [m|] [g|]]; unfold termValue, sentTermRecord;
    simpl; rewrite ?map_map; reflexivity.
Qed.

Lemma add_terms_run (args : TermsInput.t) (w : World) (id : number) :
  requireProjectId cfg (option_map number_of_positive (TermsInput.project_id args)) = Ok id ->
  let rq :=
    adapterRequest cfg "terms/add"
      [idField id;
       ("data", render "" "" (JArr (map sentTermRecord (TermsInput.terms args))))] in
  add_terms cfg remote args w
  = (bindO (adapterOutcome (remote w rq)) (fun res =>
       Ok (textResult (JSON_stringify 2
             (nullish (optChain (getProp res "result") "terms")
                      (getProp res "result"))))),
     (w ++ [rq])%list).
Proof.
  intros Hid rq. unfold add_terms. unfold bind at 1, lift at 1. rewrite Hid.
  rewrite (stringify_records _ _ _ toJSON_termValue). unfold formValue.
  unfold bind at 1. rewrite poeditor_run. fold rq.
  destruct (adapterOutcome (remote w rq)) as [res|e] eqn:E; [|reflexivity].
  unfold bind, lift, ret. rewrite (member_ok _ _ (adapterOutcome_ok _ _ E)).
  reflexivity.
Qed.

(** X21: add_terms sends one request, to terms/add, whose body is the
    token, the identifier and the data: the serialised list of the terms, one
    record for each term of the call, in which the optional fields that are
    absent are left out. *)
Theorem add_terms_single_request (args : TermsInput.t) (w : World) (id : number) :
  requireProjectId cfg (option_map number_of_positive (TermsInput.project_id args)) = Ok id ->
  exists data : string,
    snd (add_terms cfg remote args w)
    = (w ++ [ {| url := API_BASE cfg ++ "/terms/add";
                 method := "POST";
                 content_type := "application/x-www-form-urlencoded";
                 body := [("api_token", API_TOKEN cfg);
                          ("id", numberToString id);
                          ("data", data)] |} ])%list
    /\ JSON_stringify 0 (JArr (map termValue (TermsInput.terms args))) = Some data
    /\ data = render "" "" (JArr (map sentTermRecord (TermsInput.terms args)))
    /\ List.length (map sentTermRecord (TermsInput.terms args))
       = List.length (TermsInput.terms args).
Proof.
  intros Hid. eexists. split; [|split; [|split; [reflexivity|apply length_map]]].
  - rewrite (add_terms_run args w id Hid). simpl. reflexivity.
  - apply (stringify_records _ _ _ toJSON_termValue).
Qed.

(** X22: add_terms returns the terms member of the result, or the whole
    result when it has none; the text it returns is undefined exactly when
    the reply has no result at all. *)
Theorem add_terms_text (args : TermsInput.t) (w : World) (id : number) (res : JSValue) :
  requireProjectId cfg (option_map number_of_positive (TermsInput.project_id args)) = Ok id ->
  let rq :=
    adapterRequest cfg "terms/add"
      [idField id;
       ("data", render "" "" (JArr (map sentTermRecord (TermsInput.terms args))))] in
  adapterOutcome (remote w rq) = Ok res ->
  let shown :=
    nullish (optChain (getProp res "result") "terms") (getProp res "result") in
  add_terms cfg remote args w
  = (Ok (textResult (JSON_stringify 2 shown)), (w ++ [rq])%list)
  /\ (JSON_stringify 2 shown = None <-> getProp res "result" = JUndefined).
Proof.
  intros Hid rq Hres shown. split.
  - rewrite (add_terms_run args w id Hid). fold rq. rewrite Hres. reflexivity.
  - unfold JSON_stringify.
    assert (Hs : shown = JUndefined <-> getProp res "result" = JUndefined).
    { unfold shown, nullish, optChain.
      destruct (getProp res "result") as [| | | | | |ms] eqn:E; simpl;
        try (split; [discriminate|discriminate]); try tauto.
      unfold getProp. destruct (lookupKey "terms" ms) as [[| | | | | |]|];
        simpl; split; discriminate. }
    rewrite <- Hs, <- toJSON_undefined_iff.
    destruct (toJSON shown); simpl; split; congruence.
Qed.

End MoreToolFacts.

(** ** Concrete runs of the properties beyond the claims *)

Section MoreRuns.
Import Demo Samples.

Lemma formBody_prepends_token_witness :
  formBody (cfg None) [("id", "7"); ("language", "de")]
  = [("api_token", "secret"); ("id", "7"); ("language", "de")].
Proof.
  apply (formBody_prepends_token (cfg None) [("id", "7"); ("language", "de")]).
  - apply NoDup_cons; [simpl; intros [H|[]]; discriminate|].
    apply NoDup_cons; [simpl; intros []|]. apply NoDup_nil.
  - simpl. intros [H|[H|[]]]; discriminate.
  - simpl. intros k [<-|[<-|[]]]; reflexivity.
Defined.

Lemma callTool_requests_witness :
  exists new : list Request,
    snd (callTool (cfg None)
           (scripted [ReplyBody (success termsAdded); ReplyBody failure])
           (CallAddTermsWithTranslations (compoundArgs [bareItem])) [])
    = ([] ++ new)%list
    /\ List.length new <= 2
    /\ ((forall args,
            CallAddTermsWithTranslations (compoundArgs [bareItem])
            <> CallAddTermsWithTranslations args) -> List.length new <= 1)
    /\ Forall (AdapterBuilt (cfg None)) new.
Proof.
  exact (callTool_requests (rt := ModelRuntime) (cfg None)
           (scripted [ReplyBody (success termsAdded); ReplyBody failure])
           (CallAddTermsWithTranslations (compoundArgs [bareItem])) []).
Defined.

Lemma requireProjectId_returns_truthy_witness :
  truthyNumber (Finite 42 0) = true
  /\ requireProjectId (cfg (Some "42")) (Some (Finite 0 0)) = Throw missingProjectId.
Proof.
  destruct (requireProjectId_returns_truthy (rt := ModelRuntime) (cfg (Some "42")) None (Finite 42 0) eq_refl)
    as [H1 [_ H3]].
  split; [exact H1 | exact (H3 (Finite 0 0) eq_refl)].
Defined.

(** The network fails on the request of list_languages. *)
Lemma callTool_error_propagates_witness :
  callTool (cfg None) (scripted []) languagesCall []
  = (Throw (TransportError "connection refused"),
     [adapterRequest (cfg None) "languages/list" [("id", "7")]]).
Proof.
  exact (callTool_error_propagates (rt := ModelRuntime) (cfg None) (scripted []) languagesCall (Finite 7 0) []
           (TransportError "connection refused") eq_refl eq_refl).
Defined.

(** A reply that is the JSON array of 1 and 2. *)
Lemma readReply_without_response_witness :
  readReply "[1, 2]" = Throw (Error "POEditor API error : Unknown POEditor error").
Proof.
  apply (readReply_without_response (rt := ModelRuntime) "[1, 2]" (JArr [JNum (Finite 1 0); JNum (Finite 2 0)])).
  - reflexivity.
  - intros ms. discriminate.
Defined.

Lemma callTool_text_defined_witness :
  exists s : string,
    textResult (Some "{}") = {| content := [ {| type := "text"; text := Some s |} ] |}.
Proof.
  exact (callTool_text_defined (rt := ModelRuntime) (cfg None) (scripted [ReplyBody bareSuccess])
           languagesCall [] (textResult (Some "{}")) eq_refl).
Defined.

(** A success reply without a result. *)
Lemma plain_call_result_witness :
  callTool (cfg None) (scripted [ReplyBody bareSuccess]) languagesCall []
  = (Ok (textResult (Some "{}")),
     [adapterRequest (cfg None) "languages/list" [("id", "7")]]).
Proof.
  exact (proj2 (plain_call_result (rt := ModelRuntime) (cfg None) (scripted [ReplyBody bareSuccess])
                  languagesCall (Finite 7 0) [] bareSuccessJson
                  eq_refl eq_refl eq_refl) eq_refl).
Defined.

Lemma add_and_update_send_alike_witness :
  exists rqA rqU : Request,
    snd (add_translations (cfg None) (scripted [ReplyBody failure]) translationsArgs [])
    = ([] ++ [rqA])%list
    /\ snd (update_translations (cfg None) (scripted [ReplyBody badGateway])
              translationsArgs [])
       = ([] ++ [rqU])%list
    /\ url rqA = API_BASE (cfg None) ++ "/translations/add"
    /\ url rqU = API_BASE (cfg None) ++ "/translations/update"
    /\ body rqA = body rqU.
Proof.
  exact (proj2 (add_and_update_send_alike (rt := ModelRuntime) (cfg None) (scripted [ReplyBody failure])
                  (scripted [ReplyBody badGateway]) translationsArgs [])
           (Finite 7 0) eq_refl).
Defined.

Lemma list_terms_request_ignores_options_witness :
  snd (list_terms (cfg None) (scripted [ReplyBody (success remoteTerms)])
         (listArgs (Some "hello") None) [])
  = snd (list_terms (cfg None) (scripted [ReplyBody failure])
           (listArgs None (Some true)) []).
Proof.
  exact (list_terms_request_ignores_options (rt := ModelRuntime) (cfg None)
           (scripted [ReplyBody (success remoteTerms)]) (scripted [ReplyBody failure])
           (listArgs (Some "hello") None) (listArgs None (Some true)) []
           eq_refl eq_refl).
Defined.

(** Two selected terms and a limit of one. *)
Lemma listTermsOutput_limit_witness :
  listTermsOutput limitedArgs [reducedHello; reducedGoodbye]
  = textResult (JSON_stringify 0
      (JObj [("terms", JArr [reducedHello]); ("total", JNum (number_of_nat 2))])).
Proof.
  assert (Hc : ListTermsInput.count_only limitedArgs <> Some true) by discriminate.
  exact (proj1 (listTermsOutput_limit limitedArgs [reducedHello; reducedGoodbye] Hc)).
Defined.

Lemma projectFields_by_set_witness :
  projectFields [FTerm; FContext] reducedGoodbye
  = projectFields [FContext; FTerm; FTerm] reducedGoodbye.
Proof.
  apply (proj2 projectFields_by_set [FTerm; FContext] [FContext; FTerm; FTerm]).
  intros f. simpl. tauto.
Defined.

Lemma projectFields_idempotent_witness :
  projectFields [FTerm; FContext; FTranslation] reducedGoodbye = reducedGoodbye.
Proof.
  exact (proj2 projectFields_idempotent
           (JObj [("term", JStr "Goodbye"); ("context", JStr "farewell");
                  ("translation", JObj [("content", JStr "")])])
           reducedGoodbye eq_refl).
Defined.

Lemma list_terms_without_terms_witness :
  list_terms (cfg None) (scripted [ReplyBody bareSuccess]) (listArgs (Some "hello") None) []
  = (Ok (textResult (Some ("{" ++ q "terms" ++ ":[]," ++ q "total" ++ ":0}"))),
     [adapterRequest (cfg None) "terms/list" [("id", "7"); ("language", "de")]]).
Proof.
  exact (list_terms_without_terms (rt := ModelRuntime) (cfg None) (scripted [ReplyBody bareSuccess])
           (listArgs (Some "hello") None) [] (Finite 7 0) bareSuccessJson
           eq_refl eq_refl eq_refl).
Defined.

Lemma reduceTerms_shape_witness :
  List.length [reducedHello; reducedGoodbye] = 2
  /\ Forall ReducedShape [reducedHello; reducedGoodbye].
Proof.
  destruct (reduceTerms_shape (successJson remoteTerms)
              [JObj [("term", JStr "Hello world"); ("context", JStr "");
                     ("translation", JObj [("content", JStr "Hallo Welt");
                                           ("fuzzy", JNum (Finite 0 0))])];
               JObj [("term", JStr "Goodbye"); ("context", JStr "farewell");
                     ("translation", JObj [("content", JStr "");
                                           ("fuzzy", JNum (Finite 0 0))])]]
              [reducedHello; reducedGoodbye] eq_refl eq_refl eq_refl)
    as [H1 [_ H3]].
  split; [exact H1 | exact H3].
Defined.

(** The reply that lists the two sample terms is reduced. *)
Lemma reduceTerms_succeeds_iff_witness :
  (exists ts, reduceTerms (successJson remoteTerms) = Ok ts)
  <-> (isNullish (optChain (getProp (successJson remoteTerms) "result") "terms") = true
       \/ exists l,
            optChain (getProp (successJson remoteTerms) "result") "terms" = JArr l
            /\ Forall (fun t => isNullish t = false) l).
Proof.
  exact (proj1 (reduceTerms_succeeds_iff (successJson remoteTerms) eq_refl)).
Defined.

(** A list of terms with a null element is not reduced. *)
Example reduceTerms_null_element :
  reduceTerms (successJson (JObj [("terms", JArr [JObj [("term", JStr "a")]; JNull])]))
  = Throw (TypeError "Cannot read properties of null").
Proof. reflexivity. Qed.

Lemma applySearch_ignores_case_of_text_witness :
  applySearch (Some "HELLO") [reducedHello; reducedGoodbye]
  = applySearch (Some "hello") [reducedHello; reducedGoodbye].
Proof.
  exact (applySearch_ignores_case_of_text "HELLO" "hello"
           [reducedHello; reducedGoodbye] eq_refl).
Defined.

Lemma applySearch_keeps_sublist_witness :
  List.length [reducedGoodbye] <= List.length [reducedHello; reducedGoodbye]
  /\ incl [reducedGoodbye] [reducedHello; reducedGoodbye].
Proof.
  destruct (applySearch_keeps_sublist (rt := ModelRuntime) (Some "bye") [reducedHello; reducedGoodbye]
              [reducedGoodbye] eq_refl) as [_ [H2 [H3 _]]].
  split; [exact H2 | exact H3].
Defined.

(** A term with a plural translation is kept when its text matches. *)
Lemma matchesSearch_stops_at_first_match_witness :
  matchesSearch (toLowerCase "FILE") reducedPlural = Ok true.
Proof.
  exact (proj1 (matchesSearch_stops_at_first_match (rt := ModelRuntime) "FILE" reducedPlural)
           eq_refl).
Defined.

Lemma compound_output_members_witness :
  exists out : JSValue,
    add_terms_with_translations (cfg None)
      (scripted [ReplyBody bareSuccess; ReplyBody (success translationsAdded)])
      (compoundArgs [bareItem]) []
    = (Ok (textResult (JSON_stringify 2 out)),
       ([] ++ [adapterRequest (cfg None) "terms/add"
                 (termsAddForm (compoundArgs [bareItem]) (Finite 7 0));
               adapterRequest (cfg None) "translations/add"
                 (translationsAddForm (compoundArgs [bareItem]) (Finite 7 0))])%list)
    /\ (sentMember "terms_added" out = None
        <-> getProp bareSuccessJson "result" = JUndefined)
    /\ sentMember "translations_added" out <> None.
Proof.
  exact (compound_output_members (rt := ModelRuntime) (cfg None)
           (scripted [ReplyBody bareSuccess; ReplyBody (success translationsAdded)])
           (compoundArgs [bareItem]) [] (Finite 7 0)
           bareSuccessJson (successJson translationsAdded) eq_refl eq_refl eq_refl).
Defined.


(** Over the terms Hello world and Goodbye, the search text hello in mixed
    case keeps Hello world alone. *)
Lemma list_terms_search_text_witness :
  exists kept : list JSValue,
    list_terms (cfg None) (scripted [ReplyBody (success greetings)])
      (listArgs (Some "HeLLo") None) []
    = (Ok (textResult (Some ("{" ++ q "terms" ++ ":[{" ++ q "term" ++ ":"
                               ++ q "Hello world" ++ "}]," ++ q "total" ++ ":1}"))),
       [adapterRequest (cfg None) "terms/list" [("id", "7"); ("language", "de")]])
    /\ kept = [JObj [("term", JStr "Hello world"); ("context", JUndefined);
                     ("translation", JUndefined)]]
    /\ (forall t, In t kept -> TermMatches "HeLLo" t).
Proof.
  assert (Hall : Forall TextTerm
            [JObj [("term", JStr "Hello world"); ("context", JUndefined);
                   ("translation", JUndefined)];
             JObj [("term", JStr "Goodbye"); ("context", JUndefined);
                   ("translation", JUndefined)]]).
  { apply Forall_cons; [|apply Forall_cons; [|apply Forall_nil]];
      (split; [now eexists | split; now left]). }
  assert (Hascii : Forall (fun t => forall k x, getProp t k = JStr x -> isASCII x = true)
            [JObj [("term", JStr "Hello world"); ("context", JUndefined);
                   ("translation", JUndefined)];
             JObj [("term", JStr "Goodbye"); ("context", JUndefined);
                   ("translation", JUndefined)]]).
  { apply Forall_cons; [|apply Forall_cons; [|apply Forall_nil]];
      intros k x; simpl;
      destruct (String.eqb k "term");
        [intros [= <-]; reflexivity
        |destruct (String.eqb k "context");
           [discriminate|destruct (String.eqb k "translation"); discriminate]
        |intros [= <-]; reflexivity
        |destruct (String.eqb k "context");
           [discriminate|destruct (String.eqb k "translation"); discriminate]]. }
  assert (Hres : adapterOutcome
                   (scripted [ReplyBody (success greetings)] []
                      (adapterRequest (cfg None) "terms/list"
                         (listTermsForm (listArgs (Some "HeLLo") None) (Finite 7 0))))
                 = Ok (successJson greetings)) by reflexivity.
  destruct (list_terms_search_text (rt := ModelRuntime) (cfg None)
              (scripted [ReplyBody (success greetings)])
              (listArgs (Some "HeLLo") None) "HeLLo" [] (Finite 7 0)
              (successJson greetings) _ eq_refl eq_refl Hres eq_refl Hall)
    as [kept [Hrun [Hk [_ Hm]]]].
  exists kept. split; [|split].
  - rewrite Hrun, Hk. reflexivity.
  - rewrite Hk. reflexivity.
  - intros t Ht. now apply (Hm eq_refl Hascii t).
Defined.

Lemma add_terms_single_request_witness :
  exists data : string,
    snd (add_terms (cfg None) (scripted [ReplyBody (success termsAdded)]) termsArgs [])
    = ([] ++ [ {| url := "https://api.poeditor.com/v2/terms/add";
                  method := "POST";
                  content_type := "application/x-www-form-urlencoded";
                  body := [("api_token", "secret"); ("id", "7"); ("data", data)] |} ])%list
    /\ JSON_stringify 0 (JArr (map termValue (TermsInput.terms termsArgs))) = Some data
    /\ data = render "" "" (JArr (map sentTermRecord (TermsInput.terms termsArgs)))
    /\ List.length (map sentTermRecord (TermsInput.terms termsArgs))
       = List.length (TermsInput.terms termsArgs).
Proof.
  exact (add_terms_single_request (rt := ModelRuntime) (cfg None) (scripted [ReplyBody (success termsAdded)])
           termsArgs [] (Finite 7 0) eq_refl).
Defined.

(** A success reply without a result: the text of add_terms is undefined. *)
Lemma add_terms_text_witness :
  fst (add_terms (cfg None) (scripted [ReplyBody bareSuccess]) termsArgs [])
  = Ok (textResult None).
Proof.
  exact (f_equal fst
           (proj1 (add_terms_text (rt := ModelRuntime) (cfg None) (scripted [ReplyBody bareSuccess])
                     termsArgs [] (Finite 7 0) bareSuccessJson eq_refl eq_refl))).
Defined.

Lemma loadConfig_token_and_base_witness :
  loadConfig (environment (Some "") (Some "http://localhost") (Some "42")) = None
  /\ API_BASE (cfg None) = "https://api.poeditor.com/v2".
Proof.
  split.
  - exact (proj2 (proj1 (loadConfig_token_and_base
                           (environment (Some "") (Some "http://localhost") (Some "42"))))
             (or_intror eq_refl)).
  - destruct (proj2 (loadConfig_token_and_base
                       (environment (Some "secret") (Some "") None))
                (cfg None) eq_refl) as [_ [_ [_ [_ [H _]]]]].
    exact (H (or_intror eq_refl)).
Defined.

(** What add_terms sends for a term with and a term without optional
    fields. *)
Example add_terms_data :
  option_map dataOf
    (hd_error (snd (add_terms (cfg None) (scripted [ReplyBody (success termsAdded)])
                      termsArgs [])))
  = Some (Some ("[{" ++ q "term" ++ ":" ++ q "Save" ++ "," ++ q "context" ++ ":" ++ q "menu"
                  ++ "," ++ q "plural" ++ ":" ++ q "Saves" ++ "," ++ q "tags" ++ ":["
                  ++ q "ui" ++ "," ++ q "core" ++ "]},{" ++ q "term" ++ ":" ++ q "Open"
                  ++ "}]")).
Proof. reflexivity. Qed.

End MoreRuns.
